(** * FileGuard: the client-side envelope-encryption pipeline

    A shallow embedding of [frontend/src/lib/crypto.ts] (key derivation,
    key wrapping, chunk cipher) and of the two handlers that drive it,
    [handleDrop] of [FileUpload.tsx] and [handleDownload] of
    [FileList.tsx].

    The browser is the platform: the Web Crypto API, [TextEncoder] and
    [getRandomValues] are modelled after their standards (W3C Web
    Cryptography API, WHATWG Encoding, WebIDL); what the browser draws
    at random is an input, one stream for [getRandomValues] and one
    for the keys of [generateKey].  The cryptographic
    primitives themselves (AES-GCM of NIST SP 800-38D, PBKDF2 of RFC 8018)
    and [TextDecoder] are an interface, [Platform], with the functional
    facts the standards give as [PlatformSpec]; [Toy] is a small
    executable instance used to run the code on concrete inputs. *)

From Stdlib Require Import List NArith Arith Lia Bool.
From Stdlib.Strings Require Import Byte Ascii String.
Import ListNotations.

(** ** Byte buffers ([ArrayBuffer], [Uint8Array], [Buffer]) *)

Definition bytes := list byte.

Definition byte_of_N (n : N) : byte :=
  match Byte.of_N n with
  | Some b => b
  | None => x00
  end.

Definition bytes_eqb (a b : bytes) : bool :=
  if list_eq_dec Byte.byte_eq_dec a b then true else false.

(** [buf.slice(start, end)] and [buf.slice(start)] with non-negative
    indices: out-of-range indices are clamped, never an error. *)
Definition slice (start stop : nat) (b : bytes) : bytes :=
  firstn (stop - start) (skipn start b).

Definition slice_from (start : nat) (b : bytes) : bytes := skipn start b.

(** [new Uint8Array(n)]: [n] zero bytes. *)
Definition new_Uint8Array (n : nat) : bytes := repeat x00 n.

(** ** Promises and exceptions

    Every function of the library is [async]: it returns a promise that is
    either fulfilled with a value or rejected with an exception; [await]
    on a rejected promise throws. *)

Inductive exn : Type :=
| TypeError            (* WebIDL conversion failure: a required member is missing *)
| OperationError       (* Web Crypto: the operation failed, e.g. the GCM tag does not verify *)
| InvalidAccessError   (* Web Crypto: key used against its algorithm or usages *)
| DataError
| SyntaxError
| NotSupportedError
| RangeError           (* a typed-array write past the end *)
| AxiosError (detail : option string).   (* axios: the request failed; [error.response?.data?.detail] *)

Inductive Promise (A : Type) : Type :=
| Fulfilled (a : A)
| Rejected (e : exn).

Arguments Fulfilled {A} a.
Arguments Rejected {A} e.

Definition settled {A : Type} (d : A) (p : Promise A) : A :=
  match p with
  | Fulfilled a => a
  | Rejected _ => d
  end.

Definition await {A B : Type} (p : Promise A) (k : A -> Promise B) : Promise B :=
  match p with
  | Fulfilled a => k a
  | Rejected e => Rejected e
  end.

(** [target.set(source, offset)]: copies [source] into [target] from
    index [offset] on; a source that does not fit is a [RangeError]. *)
Definition Uint8Array_set (target source : bytes) (offset : nat) : Promise bytes :=
  if List.length target <? offset + List.length source then Rejected RangeError
  else Fulfilled (firstn offset target ++ source
                  ++ skipn (offset + List.length source) target).

Declare Scope promise_scope.
Delimit Scope promise_scope with promise.
Notation "x <- p ;; k" := (await p (fun x => k))
  (at level 61, p at next level, right associativity) : promise_scope.

(** ** The secure random source

    [window.crypto.getRandomValues] reads the next bytes of an entropy
    tape that no call ever rewinds. *)

Record Entropy : Type := mkEntropy { tape : nat -> byte; pos : nat }.

Definition Rand (A : Type) : Type := Entropy -> Promise A * Entropy.

Definition getRandomValues (n : nat) (e : Entropy) : bytes * Entropy :=
  (map (tape e) (seq (pos e) n), mkEntropy (tape e) (pos e + n)).

(** ** The key generator

    [subtle.generateKey] draws its keys inside the browser, not from
    the stream [getRandomValues] reads, and the standard lets key
    generation fail.  The generator is the list of what the key
    generations to come will give: nothing when one fails, or the bytes
    the key is cut from; [generated] counts the generations so far. *)

Record KeyGenerator : Type := mkKeyGenerator {
  outcomes : nat -> option (nat -> byte);
  generated : nat
}.

Definition Keygen (A : Type) : Type := KeyGenerator -> Promise A * KeyGenerator.

(** "Generate an AES key of length [8 * n] bits." *)
Definition generate_key_bytes (n : nat) (g : KeyGenerator)
  : option bytes * KeyGenerator :=
  (match outcomes g (generated g) with
   | Some f => Some (map f (seq 0 n))
   | None => None
   end,
   mkKeyGenerator (outcomes g) (S (generated g))).

(** ** Strings

    A JavaScript string is a sequence of UTF-16 code units. *)

Definition DOMString := list N.

Definition js (s : string) : DOMString :=
  map Ascii.N_of_ascii (list_ascii_of_string s).

Module Encoding.

Definition is_lead (u : N) : bool := (0xD800 <=? u)%N && (u <=? 0xDBFF)%N.
Definition is_trail (u : N) : bool := (0xDC00 <=? u)%N && (u <=? 0xDFFF)%N.

(** WebIDL conversion of a string to a [USVString]: a surrogate pair is
    one scalar value, an unpaired surrogate becomes U+FFFD. *)
Fixpoint scalar_values (s : DOMString) : list N :=
  match s with
  | [] => []
  | u :: rest =>
      if is_lead u then
        match rest with
        | v :: rest' =>
            if is_trail v
            then (0x10000 + (u - 0xD800) * 0x400 + (v - 0xDC00))%N :: scalar_values rest'
            else 0xFFFD%N :: scalar_values rest
        | [] => [0xFFFD%N]
        end
      else if is_trail u then 0xFFFD%N :: scalar_values rest
      else u :: scalar_values rest
  end.

Definition utf8_encode (c : N) : bytes :=
  if (c <? 0x80)%N then [byte_of_N c]
  else if (c <? 0x800)%N then
    [byte_of_N (0xC0 + c / 0x40); byte_of_N (0x80 + c mod 0x40)]
  else if (c <? 0x10000)%N then
    [byte_of_N (0xE0 + c / 0x1000); byte_of_N (0x80 + (c / 0x40) mod 0x40);
     byte_of_N (0x80 + c mod 0x40)]
  else
    [byte_of_N (0xF0 + c / 0x40000); byte_of_N (0x80 + (c / 0x1000) mod 0x40);
     byte_of_N (0x80 + (c / 0x40) mod 0x40); byte_of_N (0x80 + c mod 0x40)].

(** [new TextEncoder().encode(s)] *)
Definition TextEncoder_encode (s : DOMString) : bytes :=
  flat_map utf8_encode (scalar_values s).

End Encoding.

(** ** The platform functions left abstract *)

Inductive HashName : Type := SHA_1 | SHA_256 | SHA_384 | SHA_512.

Class Platform : Type := {
  (** AES-GCM authenticated encryption with a 128-bit tag and no
      additional data: key, IV, plaintext to ciphertext followed by tag.
      The mode bounds a plaintext by 2^39 - 256 bytes; no [ArrayBuffer]
      is that long, and the bound is left out. *)
  AES_GCM_encrypt : bytes -> bytes -> bytes -> bytes;
  (** AES-GCM authenticated decryption; [None] is the standard's FAIL. *)
  AES_GCM_decrypt : bytes -> bytes -> bytes -> option bytes;
  (** PBKDF2 with HMAC over the given hash: password, salt, iteration
      count, derived length in bytes. *)
  PBKDF2_HMAC : HashName -> bytes -> bytes -> N -> nat -> bytes;
  (** [new TextDecoder().decode(b)] *)
  TextDecoder_decode : bytes -> DOMString
}.

Definition tag_bytes : nat := 16.   (* 128-bit tag, the Web Crypto default *)
Definition iv_bytes : nat := 12.    (* [new Uint8Array(12)] in encryptChunk *)
Definition key_bytes : nat := 32.   (* [length: 256] *)
Definition overhead : nat := iv_bytes + tag_bytes.

(** What the standards give, stated for the key and IV sizes the library
    uses. *)
Class PlatformSpec (P : Platform) : Prop := {
  gcm_encrypt_length : forall k iv p,
    List.length k = key_bytes -> List.length iv = iv_bytes ->
    List.length (AES_GCM_encrypt k iv p) = List.length p + tag_bytes;
  gcm_decrypt_encrypt : forall k iv p,
    List.length k = key_bytes -> List.length iv = iv_bytes ->
    AES_GCM_decrypt k iv (AES_GCM_encrypt k iv p) = Some p;
  (** the tag is a function of key, IV and ciphertext, and the
      ciphertext one of key, IV and plaintext *)
  gcm_decrypt_inv : forall k iv c p,
    List.length k = key_bytes -> List.length iv = iv_bytes ->
    AES_GCM_decrypt k iv c = Some p -> c = AES_GCM_encrypt k iv p;
  pbkdf2_length : forall h pw salt c n,
    List.length (PBKDF2_HMAC h pw salt c n) = n
}.

(** ** The Web Crypto API, [window.crypto.subtle]

    Only the operations and algorithms the library calls: AES-GCM and
    PBKDF2, keys in [raw] format. *)

Module WebCrypto.

Inductive AlgName : Type := AES_GCM | PBKDF2.

Inductive KeyUsage : Type :=
| encrypt_usage | decrypt_usage | wrapKey_usage | unwrapKey_usage
| deriveKey_usage | deriveBits_usage.

Definition AlgName_eqb (a b : AlgName) : bool :=
  match a, b with
  | AES_GCM, AES_GCM | PBKDF2, PBKDF2 => true
  | _, _ => false
  end.

Definition KeyUsage_eqb (a b : KeyUsage) : bool :=
  match a, b with
  | encrypt_usage, encrypt_usage | decrypt_usage, decrypt_usage
  | wrapKey_usage, wrapKey_usage | unwrapKey_usage, unwrapKey_usage
  | deriveKey_usage, deriveKey_usage | deriveBits_usage, deriveBits_usage => true
  | _, _ => false
  end.

Definition has_usage (u : KeyUsage) (us : list KeyUsage) : bool :=
  existsb (KeyUsage_eqb u) us.

(** A [CryptoKey]: its internal slots and the key material behind its
    handle. *)
Record CryptoKey : Type := mkKey {
  algorithm : AlgName;
  extractable : bool;
  usages : list KeyUsage;
  material : bytes
}.

(** An [AlgorithmIdentifier] is a string or a dictionary with a [name]
    and the members its algorithm wants.  A bare string is the
    dictionary that has the name and nothing else. *)
Record Algorithm : Type := mkAlg {
  name : AlgName;
  iv : option bytes;           (* AesGcmParams, required *)
  length : option N;           (* AesKeyGenParams, AesDerivedKeyParams, required *)
  salt : option bytes;         (* Pbkdf2Params, required *)
  iterations : option N;       (* Pbkdf2Params, required *)
  hash : option HashName       (* Pbkdf2Params, required *)
}.

Definition alg_string (n : AlgName) : Algorithm := mkAlg n None None None None None.
Definition alg_AesGcm (i : bytes) : Algorithm := mkAlg AES_GCM (Some i) None None None None.
Definition alg_AesKey (l : N) : Algorithm := mkAlg AES_GCM None (Some l) None None None.
Definition alg_Pbkdf2 (s : bytes) (c : N) (h : HashName) : Algorithm :=
  mkAlg PBKDF2 None None (Some s) (Some c) (Some h).

(** Normalizing an algorithm for [encrypt] or [decrypt].  AES-GCM is the
    one algorithm registered for them; its dictionary, [AesGcmParams],
    has the required member [iv], and the WebIDL conversion of a value
    without it throws a [TypeError]. *)
Definition normalize_AesGcmParams (alg : Algorithm) : Promise bytes :=
  match name alg with
  | AES_GCM =>
      match iv alg with
      | Some i => Fulfilled i
      | None => Rejected TypeError
      end
  | PBKDF2 => Rejected NotSupportedError
  end.

(** Normalizing for [wrapKey] or [unwrapKey]: no algorithm here
    registers these operations (AES-KW would), so the method falls back
    on the normalization for [encrypt] or [decrypt]. *)
Definition normalize_wrap (alg : Algorithm) : Promise bytes :=
  normalize_AesGcmParams alg.

Definition aes_key_bits (l : N) : bool :=
  ((l =? 128) || (l =? 192) || (l =? 256))%N.

Definition aes_usages_ok (us : list KeyUsage) : bool :=
  forallb (fun u => match u with
                    | encrypt_usage | decrypt_usage
                    | wrapKey_usage | unwrapKey_usage => true
                    | _ => false
                    end) us.

Section Subtle.
Context {P : Platform}.
Local Open Scope promise_scope.

(** AES-GCM, import key from [raw] (Web Crypto, 27.4) followed by the
    check every key-producing method ends with: a secret key with no
    usage is a [SyntaxError]. *)
Definition import_raw_AesGcm (data : bytes) (ext : bool) (us : list KeyUsage)
  : Promise CryptoKey :=
  if negb (aes_usages_ok us) then Rejected SyntaxError
  else if negb (aes_key_bits (8 * N.of_nat (List.length data))) then Rejected DataError
  else match us with
       | [] => Rejected SyntaxError
       | _ => Fulfilled (mkKey AES_GCM ext us data)
       end.

(** [subtle.importKey('raw', data, {name: 'PBKDF2'}, ext, us)] *)
Definition importKey_raw (data : bytes) (alg : Algorithm) (ext : bool)
    (us : list KeyUsage) : Promise CryptoKey :=
  match name alg with
  | PBKDF2 =>
      if negb (forallb (fun u => match u with
                                 | deriveKey_usage | deriveBits_usage => true
                                 | _ => false
                                 end) us)
      then Rejected SyntaxError
      else if ext then Rejected SyntaxError
      else match us with
           | [] => Rejected SyntaxError
           | _ => Fulfilled (mkKey PBKDF2 false us data)
           end
  | AES_GCM => import_raw_AesGcm data ext us
  end.

(** PBKDF2, derive bits (Web Crypto, 33.3) *)
Definition deriveBits_Pbkdf2 (s : bytes) (c : N) (h : HashName)
    (baseKey : CryptoKey) (len : N) : Promise bytes :=
  if ((len =? 0) || negb (len mod 8 =? 0))%N then Rejected OperationError
  else if (c =? 0)%N then Rejected OperationError
  else Fulfilled (PBKDF2_HMAC h (material baseKey) s c (N.to_nat (len / 8))).

(** [subtle.deriveKey(alg, baseKey, derivedKeyType, ext, us)] *)
Definition deriveKey (alg : Algorithm) (baseKey : CryptoKey)
    (derivedKeyType : Algorithm) (ext : bool) (us : list KeyUsage)
  : Promise CryptoKey :=
  match name alg, salt alg, iterations alg, hash alg with
  | PBKDF2, Some s, Some c, Some h =>
      match name derivedKeyType, length derivedKeyType with
      | AES_GCM, Some len =>
          if negb (AlgName_eqb (name alg) (algorithm baseKey))
          then Rejected InvalidAccessError
          else if negb (has_usage deriveKey_usage (usages baseKey))
          then Rejected InvalidAccessError
          else if negb (aes_key_bits len) then Rejected OperationError
          else
            secret <- deriveBits_Pbkdf2 s c h baseKey len ;;
            import_raw_AesGcm secret ext us
      | AES_GCM, None => Rejected TypeError
      | PBKDF2, _ => Rejected NotSupportedError
      end
  | PBKDF2, _, _, _ => Rejected TypeError
  | AES_GCM, _, _, _ => Rejected NotSupportedError
  end.

(** [subtle.generateKey(alg, ext, us)] for AES-GCM (Web Crypto, 27.4):
    the usages and the length are checked, the key is generated, which
    may fail with an [OperationError], and the method ends with the
    check that a secret key has a usage. *)
Definition generateKey (alg : Algorithm) (ext : bool) (us : list KeyUsage)
  : Keygen CryptoKey :=
  fun g =>
    match name alg, length alg with
    | AES_GCM, Some len =>
        if negb (aes_usages_ok us) then (Rejected SyntaxError, g)
        else if negb (aes_key_bits len) then (Rejected OperationError, g)
        else let (k, g') := generate_key_bytes (N.to_nat (len / 8)) g in
             match k, us with
             | None, _ => (Rejected OperationError, g')
             | Some _, [] => (Rejected SyntaxError, g')
             | Some k, _ => (Fulfilled (mkKey AES_GCM ext us k), g')
             end
    | AES_GCM, None => (Rejected TypeError, g)
    | PBKDF2, _ => (Rejected NotSupportedError, g)
    end.

(** AES-GCM, encrypt (Web Crypto, 27.4): ciphertext followed by tag. *)
Definition encrypt (alg : Algorithm) (key : CryptoKey) (data : bytes)
  : Promise bytes :=
  i <- normalize_AesGcmParams alg ;;
  if negb (AlgName_eqb (name alg) (algorithm key)) then Rejected InvalidAccessError
  else if negb (has_usage encrypt_usage (usages key)) then Rejected InvalidAccessError
  else Fulfilled (AES_GCM_encrypt (material key) i data).

(** AES-GCM, decrypt: a ciphertext shorter than the tag, and a tag that
    does not verify, are both an [OperationError]. *)
Definition decrypt (alg : Algorithm) (key : CryptoKey) (data : bytes)
  : Promise bytes :=
  i <- normalize_AesGcmParams alg ;;
  if negb (AlgName_eqb (name alg) (algorithm key)) then Rejected InvalidAccessError
  else if negb (has_usage decrypt_usage (usages key)) then Rejected InvalidAccessError
  else if List.length data <? tag_bytes then Rejected OperationError
  else match AES_GCM_decrypt (material key) i data with
       | Some p => Fulfilled p
       | None => Rejected OperationError
       end.

(** [subtle.wrapKey('raw', key, wrappingKey, wrapAlgorithm)]: export
    the key (a PBKDF2 key has no export), then encrypt it as [encrypt]
    would. *)
Definition wrapKey_raw (key wrappingKey : CryptoKey) (wrapAlgorithm : Algorithm)
  : Promise bytes :=
  i <- normalize_wrap wrapAlgorithm ;;
  if negb (AlgName_eqb (name wrapAlgorithm) (algorithm wrappingKey))
  then Rejected InvalidAccessError
  else if negb (has_usage wrapKey_usage (usages wrappingKey))
  then Rejected InvalidAccessError
  else if AlgName_eqb (algorithm key) PBKDF2 then Rejected NotSupportedError
  else if negb (extractable key) then Rejected InvalidAccessError
  else Fulfilled (AES_GCM_encrypt (material wrappingKey) i (material key)).

(** [subtle.unwrapKey('raw', wrappedKey, unwrappingKey, unwrapAlgorithm,
    unwrappedKeyAlgorithm, ext, us)]: decrypt, then import. *)
Definition unwrapKey_raw (wrappedKey : bytes) (unwrappingKey : CryptoKey)
    (unwrapAlgorithm unwrappedKeyAlgorithm : Algorithm) (ext : bool)
    (us : list KeyUsage) : Promise CryptoKey :=
  i <- normalize_wrap unwrapAlgorithm ;;
  if negb (AlgName_eqb (name unwrapAlgorithm) (algorithm unwrappingKey))
  then Rejected InvalidAccessError
  else if negb (has_usage unwrapKey_usage (usages unwrappingKey))
  then Rejected InvalidAccessError
  else if List.length wrappedKey <? tag_bytes then Rejected OperationError
  else match AES_GCM_decrypt (material unwrappingKey) i wrappedKey with
       | Some k => importKey_raw k unwrappedKeyAlgorithm ext us
       | None => Rejected OperationError
       end.

End Subtle.

End WebCrypto.

(** ** [frontend/src/lib/crypto.ts] *)

Module Crypto.
Import WebCrypto.

Section Lib.
Context {P : Platform}.
Local Open Scope promise_scope.

Definition deriveKeyFromPassword (password : DOMString) (salt : bytes)
  : Promise CryptoKey :=
  let enc := Encoding.TextEncoder_encode in
  keyMaterial <- importKey_raw (enc password) (alg_string PBKDF2) false
                   [deriveKey_usage] ;;
  deriveKey (alg_Pbkdf2 salt 100000 SHA_256) keyMaterial (alg_AesKey 256)
    true [wrapKey_usage; unwrapKey_usage].

Definition getKEK (password salt : DOMString) : Promise CryptoKey :=
  let saltBytes := Encoding.TextEncoder_encode salt in
  deriveKeyFromPassword password saltBytes.

Definition generateDEK : Keygen CryptoKey :=
  generateKey (alg_AesKey 256) true [encrypt_usage; decrypt_usage].

Definition wrapDEK (dek kek : CryptoKey) : Promise bytes :=
  wrapKey_raw dek kek (alg_string AES_GCM).

Definition unwrapDEK (wrappedDek : bytes) (kek : CryptoKey) : Promise CryptoKey :=
  unwrapKey_raw wrappedDek kek (alg_string AES_GCM) (alg_AesKey 256)
    true [encrypt_usage; decrypt_usage].

Definition encryptChunk (chunk : bytes) (dek : CryptoKey) : Rand bytes :=
  fun e =>
    let (iv, e') := getRandomValues 12 e in
    (encryptedChunk <- encrypt (alg_AesGcm iv) dek chunk ;;
     (* Prepend IV to the encrypted chunk for decryption *)
     let result := new_Uint8Array (List.length iv + List.length encryptedChunk) in
     result <- Uint8Array_set result iv 0 ;;
     result <- Uint8Array_set result encryptedChunk (List.length iv) ;;
     Fulfilled result,
     e').

Definition decryptChunk (encryptedChunkWithIv : bytes) (dek : CryptoKey)
  : Promise bytes :=
  let iv := slice 0 12 encryptedChunkWithIv in
  let encryptedChunk := slice_from 12 encryptedChunkWithIv in
  decrypt (alg_AesGcm iv) dek encryptedChunk.

End Lib.

(** A DEK is what [generateDEK] makes: a 256-bit AES-GCM key that may
    encrypt and decrypt. *)
Definition is_DEK (k : CryptoKey) : bool :=
  AlgName_eqb (algorithm k) AES_GCM
  && has_usage encrypt_usage (usages k)
  && has_usage decrypt_usage (usages k)
  && (List.length (material k) =? key_bytes).

(** A KEK is what [getKEK] makes: a 256-bit AES-GCM key that may wrap
    and unwrap. *)
Definition is_KEK (k : CryptoKey) : bool :=
  AlgName_eqb (algorithm k) AES_GCM
  && has_usage wrapKey_usage (usages k)
  && has_usage unwrapKey_usage (usages k)
  && (List.length (material k) =? key_bytes).

End Crypto.

(** ** A toy platform

    A stand-in for the primitives, small enough to run: the "cipher" adds
    a pad byte made of key and IV to every plaintext byte, the "tag" is a
    checksum of key, IV and ciphertext, the "KDF" repeats a checksum of
    its inputs.  It has the shape the standards give and none of the
    security. *)

Module Toy.

Definition byte_add (a b : byte) : byte :=
  byte_of_N ((Byte.to_N a + Byte.to_N b) mod 256).

Definition byte_sub (a b : byte) : byte :=
  byte_of_N ((Byte.to_N a + 256 - Byte.to_N b) mod 256).

Definition checksum (b : bytes) : byte := fold_right byte_add x00 b.

Definition pad (k iv : bytes) : byte := checksum (k ++ iv).

Definition tag (k iv c : bytes) : bytes :=
  checksum (k ++ iv ++ c) :: repeat (pad k iv) 15.

Definition toy_encrypt (k iv p : bytes) : bytes :=
  let c := map (fun x => byte_add x (pad k iv)) p in
  c ++ tag k iv c.

Definition toy_decrypt (k iv d : bytes) : option bytes :=
  let n := List.length d - 16 in
  let c := firstn n d in
  if bytes_eqb (skipn n d) (tag k iv c) && (16 <=? List.length d)
  then Some (map (fun x => byte_sub x (pad k iv)) c)
  else None.

Definition toy_pbkdf2 (h : HashName) (pw s : bytes) (c : N) (n : nat) : bytes :=
  repeat (byte_add (checksum pw) (byte_add (checksum s) (byte_of_N (c mod 256)))) n.

Definition toy_decode (b : bytes) : DOMString := map Byte.to_N b.

Definition platform : Platform :=
  {| AES_GCM_encrypt := toy_encrypt;
     AES_GCM_decrypt := toy_decrypt;
     PBKDF2_HMAC := toy_pbkdf2;
     TextDecoder_decode := toy_decode |}.

(** An entropy tape that counts. *)
Definition counting : Entropy := mkEntropy (fun i => byte_of_N (N.of_nat i mod 256)) 0.

(** A key generator that never fails and cuts every key from the
    counting bytes. *)
Definition keys : KeyGenerator := mkKeyGenerator (fun _ => Some (tape counting)) 0.

(** The DEK that [generateDEK] makes with that generator. *)
Definition dek : WebCrypto.CryptoKey :=
  WebCrypto.mkKey WebCrypto.AES_GCM true
    [WebCrypto.encrypt_usage; WebCrypto.decrypt_usage]
    (map (tape counting) (seq 0 32)).

(** The counting tape, 32 and 44 bytes on. *)
Definition counting_on : Entropy := snd (getRandomValues 32 counting).
Definition counting_further : Entropy := snd (getRandomValues 12 counting_on).

End Toy.


(** ** The storage and auth backend *)

(** The [FileMetadata] of [FileList.tsx], without [updated_at], which
    only the listing shows.  [original_filename_encrypted] and
    [wrapped_dek] travel as base64 text; the record holds the bytes that
    [Buffer.from(_, 'base64')] reads back. *)
Record FileMetadata : Type := mkMeta {
  id : N;
  original_filename_encrypted : bytes;
  size_bytes : N;
  mime_type : string;
  wrapped_dek : bytes
}.

Module Backend.

(** Modelled from the spec: what the backend keeps of one upload.  The
    backend itself (the HTTP service and its object storage) lies outside
    the client; section 3 of the specification has it persist the
    encrypted filename, the wrapped DEK and the ciphertext chunks. *)
Record Upload : Type := mkUpload {
  meta : FileMetadata;
  chunks : list bytes;
  completed : bool
}.

(** Modelled from the spec: the state of the backend, for one user. *)
Record Server : Type := mkServer {
  reachable : bool;
  (** the user's salt.  The handlers pass [Buffer.from(data.salt,
      'base64')] to [getKEK], whose parameter is a string and whose
      [TextEncoder] converts its argument to one; this is that string. *)
  user_salt : DOMString;
  (** the uploads, the one with identifier [i] at index [i] *)
  uploads : list Upload
}.

Definition Request (A : Type) : Type := Server -> Promise A * Server.

(** Modelled from the spec: a request fails when the backend cannot be
    reached ([TransferAborted], section 7). *)
Definition served {A : Type} (r : Request A) : Request A :=
  fun s => if reachable s then r s else (Rejected (AxiosError None), s).

Fixpoint update_nth {A : Type} (i : nat) (f : A -> A) (l : list A) : list A :=
  match l, i with
  | [], _ => []
  | x :: rest, 0 => f x :: rest
  | x :: rest, S j => x :: update_nth j f rest
  end.

Definition with_upload (fileId : N) (f : Upload -> Upload) : Request unit :=
  fun s =>
    match nth_error (uploads s) (N.to_nat fileId) with
    | Some _ =>
        (Fulfilled tt,
         mkServer (reachable s) (user_salt s)
                  (update_nth (N.to_nat fileId) f (uploads s)))
    | None => (Rejected (AxiosError None), s)
    end.

(** Modelled from the spec: [GET salt(userCredential)] returns the user's
    persistent salt (section 6). *)
Definition get_salt (tok : DOMString) : Request DOMString :=
  served (fun s => (Fulfilled (user_salt s), s)).

(** Modelled from the spec: [POST initUpload(encryptedFilename, sizeBytes,
    mimeType, wrappedDek)] registers the metadata and returns a file
    identifier (section 6). *)
Definition init_upload (tok : DOMString) (encryptedFilename : bytes)
    (sizeBytes : N) (mimeType : string) (wrappedDek : bytes) : Request N :=
  served (fun s =>
    let fileId := N.of_nat (List.length (uploads s)) in
    let m := mkMeta fileId encryptedFilename sizeBytes mimeType wrappedDek in
    (Fulfilled fileId,
     mkServer (reachable s) (user_salt s) (uploads s ++ [mkUpload m [] false]))).

(** Modelled from the spec: [POST uploadChunk(fileId, ciphertextChunk)],
    the chunk index implicit in the order of the requests (section 6). *)
Definition upload_chunk (tok : DOMString) (fileId : N) (chunk : bytes) : Request unit :=
  served (with_upload fileId
            (fun u => mkUpload (meta u) (chunks u ++ [chunk]) (completed u))).

(** Modelled from the spec: [POST completeUpload(fileId)] (section 6). *)
Definition complete_upload (tok : DOMString) (fileId : N) : Request unit :=
  served (with_upload fileId (fun u => mkUpload (meta u) (chunks u) true)).

(** Modelled from the spec: [GET downloadContent(fileId)] returns the
    ciphertext bytes (section 6): the chunks, which the server persists
    individually or concatenated (section 3) and combines when the upload
    completes (ARCHITECTURE.md), one after the other in upload order. *)
Definition download_content (tok : DOMString) (fileId : N) : Request bytes :=
  served (fun s =>
    match nth_error (uploads s) (N.to_nat fileId) with
    | Some u => (Fulfilled (List.concat (chunks u)), s)
    | None => (Rejected (AxiosError None), s)
    end).

End Backend.

(** ** The browser around the handlers *)

Record Notification : Type := mkNote {
  title : string;
  message : DOMString;
  color : string
}.

(** A browser download: the [download] attribute of the anchor that was
    clicked, and the [Blob] behind its [href]. *)
Record SavedFile : Type := mkSaved {
  saved_as : DOMString;
  blob_type : string;
  blob_bytes : bytes
}.

(** A [File] of the drop zone. *)
Record File : Type := mkFile {
  file_name : DOMString;
  file_type : string;
  file_bytes : bytes
}.

Definition file_size (f : File) : N := N.of_nat (List.length (file_bytes f)).

(** [blob.slice(start, end)]: both ends are clamped to the size. *)
Definition Blob_slice (start stop : N) (b : bytes) : bytes :=
  let size := N.of_nat (List.length b) in
  let relativeStart := N.min start size in
  let relativeEnd := N.min stop size in
  let span := (relativeEnd - relativeStart)%N in
  firstn (N.to_nat span) (skipn (N.to_nat relativeStart) b).

Record World : Type := mkWorld {
  token : option DOMString;        (* [useAuthStore], [string | null]; read-only here *)
  server : Backend.Server;
  entropy : Entropy;                (* behind [crypto.getRandomValues] *)
  keygen : KeyGenerator;           (* behind [subtle.generateKey] *)
  shown : list Notification;       (* [notifications.show], oldest first *)
  saved : list SavedFile;          (* downloads started, oldest first *)
  uploading : bool;                (* React state of [FileUpload] *)
  progress : N
}.

(** Code that awaits and acts on the world; a rejection keeps the world as
    it was when the exception was thrown. *)
Definition Async (A : Type) : Type := World -> Promise A * World.

Definition ret {A : Type} (a : A) : Async A := fun w => (Fulfilled a, w).

Definition throw {A : Type} (e : exn) : Async A := fun w => (Rejected e, w).

Definition bind {A B : Type} (m : Async A) (k : A -> Async B) : Async B :=
  fun w =>
    match m w with
    | (Fulfilled a, w') => k a w'
    | (Rejected e, w') => (Rejected e, w')
    end.

Definition try_catch (body : Async unit) (handler : exn -> Async unit) : Async unit :=
  fun w =>
    match body w with
    | (Fulfilled a, w') => (Fulfilled a, w')
    | (Rejected e, w') => handler e w'
    end.

Definition finally (body : Async unit) (cleanup : World -> World) : Async unit :=
  fun w => let (r, w') := body w in (r, cleanup w').

Declare Scope async_scope.
Delimit Scope async_scope with async.
Notation "x <~ m ;; k" := (bind m (fun x => k))
  (at level 61, m at next level, right associativity) : async_scope.
Notation "m ;;; k" := (bind m (fun _ => k))
  (at level 61, right associativity) : async_scope.

Definition of_promise {A : Type} (p : Promise A) : Async A := fun w => (p, w).

Definition of_rand {A : Type} (r : Rand A) : Async A :=
  fun w =>
    let (p, e) := r (entropy w) in
    (p, mkWorld (token w) (server w) e (keygen w) (shown w) (saved w) (uploading w)
                (progress w)).

Definition of_keygen {A : Type} (r : Keygen A) : Async A :=
  fun w =>
    let (p, g) := r (keygen w) in
    (p, mkWorld (token w) (server w) (entropy w) g (shown w) (saved w) (uploading w)
                (progress w)).

Definition axios {A : Type} (r : Backend.Request A) : Async A :=
  fun w =>
    let (p, s) := r (server w) in
    (p, mkWorld (token w) s (entropy w) (keygen w) (shown w) (saved w) (uploading w)
                (progress w)).

Definition show (n : Notification) (w : World) : World :=
  mkWorld (token w) (server w) (entropy w) (keygen w) (shown w ++ [n]) (saved w)
          (uploading w) (progress w).

Definition setUploading (b : bool) (w : World) : World :=
  mkWorld (token w) (server w) (entropy w) (keygen w) (shown w) (saved w) b (progress w).

Definition setProgress (n : N) (w : World) : World :=
  mkWorld (token w) (server w) (entropy w) (keygen w) (shown w) (saved w) (uploading w) n.

Definition save (f : SavedFile) (w : World) : World :=
  mkWorld (token w) (server w) (entropy w) (keygen w) (shown w) (saved w ++ [f])
          (uploading w) (progress w).

Definition act (f : World -> World) : Async unit := fun w => (Fulfilled tt, f w).

(** A value that is a string or [null], as [prompt(...)] returns and
    the auth store holds: [!value] holds of [null] and of the empty
    string. *)
Definition truthy (answer : option DOMString) : option DOMString :=
  match answer with
  | Some (c :: s) => Some (c :: s)
  | _ => None
  end.

(** The functions the handlers import from [../lib/crypto]. *)
Class CryptoLib : Type := {
  crypto_getKEK : DOMString -> DOMString -> Promise WebCrypto.CryptoKey;
  crypto_generateDEK : Keygen WebCrypto.CryptoKey;
  crypto_wrapDEK : WebCrypto.CryptoKey -> WebCrypto.CryptoKey -> Promise bytes;
  crypto_unwrapDEK : bytes -> WebCrypto.CryptoKey -> Promise WebCrypto.CryptoKey;
  crypto_encryptChunk : bytes -> WebCrypto.CryptoKey -> Rand bytes;
  crypto_decryptChunk : bytes -> WebCrypto.CryptoKey -> Promise bytes
}.

(** A blob and the slice [encryptChunk] made it of, at some state of the
    random source. *)
Definition encrypts {P : Platform} (dek : WebCrypto.CryptoKey) (blob slice : bytes)
  : Prop :=
  exists e, fst (Crypto.encryptChunk slice dek e) = Fulfilled blob.

Definition lib_crypto (P : Platform) : CryptoLib :=
  {| crypto_getKEK := Crypto.getKEK;
     crypto_generateDEK := Crypto.generateDEK;
     crypto_wrapDEK := Crypto.wrapDEK;
     crypto_unwrapDEK := Crypto.unwrapDEK;
     crypto_encryptChunk := Crypto.encryptChunk;
     crypto_decryptChunk := Crypto.decryptChunk |}.

(** ** Sample inputs

    The end-to-end scenario of the specification: the password
    [correct-horse-battery], a file [report.pdf] of 10 MiB. *)

Module Sample.

Definition password : DOMString := js "correct-horse-battery".

Definition report : File :=
  mkFile (js "report.pdf") "application/pdf"
         (repeat x00 (N.to_nat (10 * 1024 * 1024))).

Definition note : File := mkFile (js "note.csv") "text/csv" [x01; x02; x03].

(** The KEK that [getKEK] derives, on the toy platform, from the password
    and the salt [salt]. *)
Definition kek : WebCrypto.CryptoKey :=
  WebCrypto.mkKey WebCrypto.AES_GCM true
    [WebCrypto.wrapKey_usage; WebCrypto.unwrapKey_usage]
    (Toy.toy_pbkdf2 SHA_256 (Encoding.TextEncoder_encode password)
       (Encoding.TextEncoder_encode (js "salt")) 100000 32).

(** A signed-in browser in front of a backend with nothing stored. *)
Definition world : World :=
  mkWorld (Some (js "token")) (Backend.mkServer true (js "salt") [])
          Toy.counting Toy.keys [] [] false 0.

(** The same after [POST initUpload] for [report.pdf]. *)
Definition registered : Backend.Upload :=
  Backend.mkUpload (mkMeta 0 [] (10 * 1024 * 1024) "application/pdf" []) [] false.

Definition world_registered : World :=
  mkWorld (Some (js "token")) (Backend.mkServer true (js "salt") [registered])
          Toy.counting_on Toy.keys [] [] false 0.

(** A listing entry whose fields are not what the user's keys made. *)
Definition listed : FileMetadata :=
  mkMeta 0 [x01; x02; x03] 3 "text/csv" [x04; x05; x06].

End Sample.

(** ** [frontend/src/components/FileUpload.tsx] *)

Module FileUpload.

Definition CHUNK_SIZE : N := 4 * 1024 * 1024.   (* 4MB *)

(** [Math.min(Math.round((offset / size) * 100), 100)], with the
    quotient and the product taken exactly and rounded once, to the
    nearest whole number, halves up.  The code rounds twice more, to a
    double after the division and after the product, which can move a
    value that is not yet 100 by one (at 92 MiB of 160 MiB the code
    shows 57 where this gives 58); from [offset >= size] on both give
    100. *)
Definition percent (offset size : N) : N :=
  N.min ((200 * offset + size) / (2 * size)) 100.

Definition authentication_error : Notification :=
  mkNote "Authentication Error" (js "You must be logged in to upload files.") "red".

Definition password_required : Notification :=
  mkNote "Password required"
         (js "Password is required to encrypt and upload the file.") "red".

Definition upload_complete (f : File) : Notification :=
  mkNote "Upload Complete" (file_name f ++ js " has been securely uploaded.") "green".

(** [error.response?.data?.detail || 'An unexpected error occurred.'] *)
Definition upload_failed (error : exn) : Notification :=
  mkNote "Upload Failed"
         (match error with
          | AxiosError (Some (String c d)) => js (String c d)
          | _ => js "An unexpected error occurred."
          end) "red".

(** The plaintext slices the loop of step 6 cuts from byte [offset] on,
    in at most [turns] turns. *)
Fixpoint slices (turns : nat) (offset : N) (b : bytes) : list bytes :=
  match turns with
  | 0 => []
  | S turns' =>
      if (offset <? N.of_nat (List.length b))%N
      then Blob_slice offset (offset + CHUNK_SIZE) b
           :: slices turns' (offset + CHUNK_SIZE) b
      else []
  end.

(** Reading a property of [files[0]] when no file was dropped. *)
Definition defined {A : Type} (x : option A) : Async A :=
  match x with
  | Some a => ret a
  | None => throw TypeError
  end.

Section Handlers.
Context {L : CryptoLib}.
Local Open Scope async_scope.

(** The loop of step 6, [while (offset < file.size)].  Every turn adds
    [CHUNK_SIZE] to [offset]; [turns] bounds the number of turns and
    is chosen by [handleDrop] so that the bound is never what ends the
    loop (see [upload_chunks_turns]). *)
Fixpoint upload_chunks (turns : nat) (file : File) (dek : WebCrypto.CryptoKey)
    (tok : DOMString) (fileId : N) (offset : N) : Async unit :=
  match turns with
  | 0 => ret tt
  | S turns' =>
      if (offset <? file_size file)%N then
        let chunk := Blob_slice offset (offset + CHUNK_SIZE) (file_bytes file) in
        encryptedChunk <~ of_rand (crypto_encryptChunk chunk dek) ;;
        axios (Backend.upload_chunk tok fileId encryptedChunk) ;;;
        let offset := (offset + CHUNK_SIZE)%N in
        act (setProgress (percent offset (file_size file))) ;;;
        upload_chunks turns' file dek tok fileId offset
      else ret tt
  end.

Definition turns_for (file : File) : nat :=
  S (N.to_nat (file_size file / CHUNK_SIZE)).

Definition handleDrop (files : list File) (answer : option DOMString)
  : World -> World :=
  fun w =>
    match truthy (token w) with
    | None => show authentication_error w
    | Some tok =>
        let w := setUploading true w in
        let file := hd_error files in
        snd (finally
          (try_catch
             ((* 1. Generate a new Data Encryption Key (DEK) for this file *)
              dek <~ of_keygen crypto_generateDEK ;;
              match truthy answer with
              | None =>
                  act (show password_required) ;;;
                  act (setUploading false)
              | Some password =>
                  (* 1. Get user's salt to derive KEK *)
                  salt <~ axios (Backend.get_salt tok) ;;
                  (* 2. Derive the Key Encryption Key (KEK) *)
                  kek <~ of_promise (crypto_getKEK password salt) ;;
                  (* 3. Wrap the DEK with the KEK *)
                  wrappedDek <~ of_promise (crypto_wrapDEK dek kek) ;;
                  (* 4. Encrypt the filename *)
                  file <~ defined file ;;
                  encryptedFilename <~
                    of_rand (crypto_encryptChunk
                               (Encoding.TextEncoder_encode (file_name file)) dek) ;;
                  (* 5. Initialize the upload with the backend *)
                  fileId <~ axios (Backend.init_upload tok encryptedFilename
                                     (file_size file) (file_type file) wrappedDek) ;;
                  (* 6. Upload the file in chunks *)
                  upload_chunks (turns_for file) file dek tok fileId 0 ;;;
                  (* 7. Finalize the upload *)
                  axios (Backend.complete_upload tok fileId) ;;;
                  act (show (upload_complete file))
              end)
             (fun error => act (show (upload_failed error))))
          (fun w => setProgress 0 (setUploading false w))
          w)
    end.

End Handlers.

End FileUpload.

(** ** [frontend/src/components/FileList.tsx] *)

Module FileList.

Definition password_required : Notification :=
  mkNote "Password required"
         (js "Password is required to decrypt and download the file.") "red".

Definition download_failed : Notification :=
  mkNote "Download Failed"
         (js "Could not decrypt or download the file. Please check your password.")
         "red".

Section Handlers.
Context {P : Platform} {L : CryptoLib}.
Local Open Scope async_scope.

Definition handleDownload (file : FileMetadata) (answer : option DOMString)
  : World -> World :=
  fun w =>
    match truthy (token w) with
    | None => w
    | Some tok =>
        match truthy answer with
        | None => show password_required w
        | Some password =>
            snd (try_catch
              ((* 1. Get user's salt to derive KEK *)
               salt <~ axios (Backend.get_salt tok) ;;
               (* 2. Re-derive KEK from password *)
               kek <~ of_promise (crypto_getKEK password salt) ;;
               (* 3. Fetch the file metadata to get the wrapped DEK *)
               let wrappedDek := wrapped_dek file in
               (* 3. Unwrap the DEK *)
               dek <~ of_promise (crypto_unwrapDEK wrappedDek kek) ;;
               (* 4. Decrypt the filename *)
               let encryptedFilenameBytes := original_filename_encrypted file in
               decryptedFilenameBytes <~
                 of_promise (crypto_decryptChunk encryptedFilenameBytes dek) ;;
               let decryptedFilename := TextDecoder_decode decryptedFilenameBytes in
               (* 5. Download the encrypted file content *)
               response <~ axios (Backend.download_content tok (id file)) ;;
               (* 6. Decrypt the content *)
               decryptedContent <~ of_promise (crypto_decryptChunk response dek) ;;
               (* 7. Trigger browser download *)
               act (save (mkSaved decryptedFilename (mime_type file) decryptedContent)))
              (fun error => act (show download_failed))
              w)
        end
    end.

End Handlers.

End FileList.

(** ** What the upload stores, and what a handler leaves alone *)

(** The blob [encryptChunk] makes of a slice when the random source
    stands at position [p] of the tape [t]. *)
Definition seal {P : Platform} (dek : WebCrypto.CryptoKey) (t : nat -> byte)
    (p : nat) (slice : bytes) : bytes :=
  let nonce := map t (seq p 12) in
  nonce ++ AES_GCM_encrypt (WebCrypto.material dek) nonce slice.

(** The blobs of a list of slices encrypted one after the other. *)
Fixpoint seal_all {P : Platform} (dek : WebCrypto.CryptoKey) (t : nat -> byte)
    (p : nat) (slices : list bytes) : list bytes :=
  match slices with
  | [] => []
  | slice :: rest => seal dek t p slice :: seal_all dek t (p + 12) rest
  end.

(** Code that shows nothing, saves nothing and leaves the token alone. *)
Definition quiet {A : Type} (m : Async A) : Prop :=
  forall w r w',
    m w = (r, w') ->
    token w' = token w /\ shown w' = shown w /\ saved w' = saved w.

(** Code that leaves token and saved files alone and shows one
    notification when it is fulfilled, none when it is rejected. *)
Definition announcing {A : Type} (m : Async A) : Prop :=
  forall w r w',
    m w = (r, w') ->
    token w' = token w /\ saved w' = saved w
    /\ match r with
       | Fulfilled _ => exists n, shown w' = shown w ++ [n]
       | Rejected _ => shown w' = shown w
       end.

(** An upload with more chunks at its end. *)
Definition appended (blobs : list bytes) (u : Backend.Upload) : Backend.Upload :=
  Backend.mkUpload (Backend.meta u) (Backend.chunks u ++ blobs) (Backend.completed u).

(** * Facts *)

(** ** Buffers *)

Lemma to_N_byte_of_N (n : N) : (n < 256)%N -> Byte.to_N (byte_of_N n) = n.
Proof.
  intros Hn. unfold byte_of_N.
  pose proof (Byte.to_of_N_option_map n) as H.
  destruct (Byte.of_N n) as [b|] eqn:E; simpl in H.
  - destruct (n <=? 255)%N; congruence.
  - destruct (n <=? 255)%N eqn:E'; [discriminate|].
    apply N.leb_gt in E'. lia.
Qed.

Lemma byte_of_N_to_N (b : byte) : byte_of_N (Byte.to_N b) = b.
Proof. unfold byte_of_N. now rewrite Byte.of_to_N. Qed.

Lemma bytes_eqb_eq (a b : bytes) : bytes_eqb a b = true <-> a = b.
Proof. unfold bytes_eqb. destruct (list_eq_dec _ a b); split; congruence. Qed.

Lemma firstn_all_app {A : Type} (l1 l2 : list A) n :
  n = List.length l1 -> firstn n (l1 ++ l2) = l1.
Proof.
  intros ->. rewrite firstn_app, Nat.sub_diag, firstn_all. simpl. apply app_nil_r.
Qed.

Lemma skipn_all_app {A : Type} (l1 l2 : list A) n :
  n = List.length l1 -> skipn n (l1 ++ l2) = l2.
Proof.
  intros ->. rewrite skipn_app, Nat.sub_diag, skipn_all. reflexivity.
Qed.

(** The three lines that assemble the output of [encryptChunk] amount to
    [iv ++ encryptedChunk]. *)
Lemma blob_assembly (iv c : bytes) :
  (let result := new_Uint8Array (List.length iv + List.length c) in
   result <- Uint8Array_set result iv 0 ;;
   result <- Uint8Array_set result c (List.length iv) ;;
   Fulfilled result)%promise = Fulfilled (iv ++ c).
Proof.
  cbv zeta. unfold Uint8Array_set at 1, new_Uint8Array.
  rewrite repeat_length.
  replace (List.length iv + List.length c <? 0 + List.length iv) with false
    by (symmetry; apply Nat.ltb_ge; lia).
  cbn [await firstn app Nat.add].
  unfold Uint8Array_set.
  rewrite length_app, length_skipn, repeat_length.
  replace (_ <? _) with false by (symmetry; apply Nat.ltb_ge; lia).
  cbn [await]. f_equal.
  rewrite firstn_all_app by reflexivity.
  rewrite skipn_all2 by (rewrite length_app, length_skipn, repeat_length; lia).
  now rewrite app_nil_r.
Qed.


Lemma getRandomValues_length n e : List.length (fst (getRandomValues n e)) = n.
Proof. simpl. now rewrite length_map, length_seq. Qed.

(** ** The toy platform meets the interface *)

Module ToyFacts.
Import Toy.

Lemma byte_sub_add (x p : byte) : byte_sub (byte_add x p) p = x.
Proof.
  unfold byte_sub, byte_add.
  pose proof (Byte.to_N_bounded x). pose proof (Byte.to_N_bounded p).
  rewrite to_N_byte_of_N by (apply N.mod_lt; lia).
  rewrite <- (byte_of_N_to_N x) at 2. f_equal.
  destruct (N.lt_ge_cases (Byte.to_N x + Byte.to_N p) 256) as [Hlt|Hge].
  - rewrite (N.mod_small _ _ Hlt).
    replace (Byte.to_N x + Byte.to_N p + 256 - Byte.to_N p)%N
      with (Byte.to_N x + 1 * 256)%N by lia.
    rewrite N.Div0.mod_add. apply N.mod_small. lia.
  - replace (Byte.to_N x + Byte.to_N p)%N
      with ((Byte.to_N x + Byte.to_N p - 256) + 1 * 256)%N by lia.
    rewrite N.Div0.mod_add, (N.mod_small (Byte.to_N x + Byte.to_N p - 256)) by lia.
    replace (Byte.to_N x + Byte.to_N p - 256 + 256 - Byte.to_N p)%N
      with (Byte.to_N x) by lia.
    apply N.mod_small. lia.
Qed.

Lemma byte_add_sub (x p : byte) : byte_add (byte_sub x p) p = x.
Proof.
  unfold byte_sub, byte_add.
  pose proof (Byte.to_N_bounded x). pose proof (Byte.to_N_bounded p).
  rewrite to_N_byte_of_N by (apply N.mod_lt; lia).
  rewrite <- (byte_of_N_to_N x) at 2. f_equal.
  destruct (N.lt_ge_cases (Byte.to_N x) (Byte.to_N p)) as [Hlt|Hge].
  - rewrite (N.mod_small (Byte.to_N x + 256 - Byte.to_N p)) by lia.
    replace (Byte.to_N x + 256 - Byte.to_N p + Byte.to_N p)%N
      with (Byte.to_N x + 1 * 256)%N by lia.
    rewrite N.Div0.mod_add. apply N.mod_small. lia.
  - replace (Byte.to_N x + 256 - Byte.to_N p)%N
      with ((Byte.to_N x - Byte.to_N p) + 1 * 256)%N by lia.
    rewrite N.Div0.mod_add, (N.mod_small (Byte.to_N x - Byte.to_N p)) by lia.
    replace (Byte.to_N x - Byte.to_N p + Byte.to_N p)%N with (Byte.to_N x) by lia.
    apply N.mod_small. lia.
Qed.

Lemma tag_length k iv c : List.length (tag k iv c) = 16.
Proof. reflexivity. Qed.

Lemma toy_encrypt_length k iv p :
  List.length (toy_encrypt k iv p) = List.length p + tag_bytes.
Proof.
  unfold toy_encrypt. now rewrite length_app, length_map, tag_length.
Qed.

Lemma toy_decrypt_encrypt k iv p : toy_decrypt k iv (toy_encrypt k iv p) = Some p.
Proof.
  unfold toy_decrypt. rewrite toy_encrypt_length. unfold tag_bytes.
  replace (List.length p + 16 - 16) with (List.length p) by lia.
  unfold toy_encrypt.
  rewrite firstn_all_app, skipn_all_app by now rewrite length_map.
  replace (bytes_eqb _ _) with true by (symmetry; now apply bytes_eqb_eq).
  replace (16 <=? _) with true by (symmetry; apply Nat.leb_le; lia).
  simpl. f_equal. rewrite map_map.
  rewrite <- (map_id p) at 2. apply map_ext. intros x. apply byte_sub_add.
Qed.

Lemma toy_decrypt_inv k iv c p :
  toy_decrypt k iv c = Some p -> c = toy_encrypt k iv p.
Proof.
  unfold toy_decrypt.
  destruct (bytes_eqb _ _) eqn:E; [|discriminate].
  destruct (16 <=? _) eqn:E'; [|discriminate].
  simpl. intros [= <-]. apply bytes_eqb_eq in E.
  unfold toy_encrypt. rewrite map_map.
  rewrite (map_ext _ (fun x => x)) by (intros; apply byte_add_sub).
  rewrite map_id, <- E. symmetry. apply firstn_skipn.
Qed.


Lemma spec : PlatformSpec platform.
Proof.
  constructor; simpl; intros.
  - apply toy_encrypt_length.
  - apply toy_decrypt_encrypt.
  - now apply toy_decrypt_inv.
  - unfold toy_pbkdf2. apply repeat_length.
Qed.

End ToyFacts.

(** ** The chunk cipher, [encryptChunk] and [decryptChunk] *)

Module ChunkCipher.
Import Crypto.

Lemma is_DEK_inv k :
  is_DEK k = true ->
  WebCrypto.algorithm k = WebCrypto.AES_GCM
  /\ WebCrypto.has_usage WebCrypto.encrypt_usage (WebCrypto.usages k) = true
  /\ WebCrypto.has_usage WebCrypto.decrypt_usage (WebCrypto.usages k) = true
  /\ List.length (WebCrypto.material k) = key_bytes.
Proof.
  unfold is_DEK. rewrite !andb_true_iff, Nat.eqb_eq.
  intros [[[Ha He] Hd] Hl]. repeat split; trivial.
  now destruct (WebCrypto.algorithm k).
Qed.

Section Shape.
Context {P : Platform}.

(** What [encryptChunk] computes under a DEK: the next twelve bytes of
    the entropy tape, followed by the AES-GCM output under them. *)
Lemma encryptChunk_eq chunk dek e :
  is_DEK dek = true ->
  encryptChunk chunk dek e =
    (Fulfilled (fst (getRandomValues 12 e)
                ++ AES_GCM_encrypt (WebCrypto.material dek)
                     (fst (getRandomValues 12 e)) chunk),
     snd (getRandomValues 12 e)).
Proof.
  intros Hk. destruct (is_DEK_inv dek Hk) as (Ha & He & _ & _).
  unfold encryptChunk.
  destruct (getRandomValues 12 e) as [iv e'] eqn:E. cbn [fst snd].
  unfold WebCrypto.encrypt. cbn [WebCrypto.normalize_AesGcmParams
    WebCrypto.alg_AesGcm WebCrypto.name WebCrypto.iv await].
  rewrite Ha, He. cbn [WebCrypto.AlgName_eqb negb await].
  now rewrite blob_assembly.
Qed.

(** What [decryptChunk] computes under a DEK: the first twelve bytes
    are the IV, the rest goes to AES-GCM. *)
Lemma decryptChunk_eq blob dek :
  is_DEK dek = true ->
  decryptChunk blob dek =
    if List.length (skipn 12 blob) <? tag_bytes then Rejected OperationError
    else match AES_GCM_decrypt (WebCrypto.material dek) (firstn 12 blob)
                 (skipn 12 blob) with
         | Some p => Fulfilled p
         | None => Rejected OperationError
         end.
Proof.
  intros Hk. destruct (is_DEK_inv dek Hk) as (Ha & _ & Hd & _).
  unfold decryptChunk, slice, slice_from, WebCrypto.decrypt.
  cbn [WebCrypto.normalize_AesGcmParams WebCrypto.alg_AesGcm
       WebCrypto.name WebCrypto.iv await skipn Nat.sub].
  rewrite Ha, Hd. reflexivity.
Qed.

Lemma decryptChunk_short blob dek :
  is_DEK dek = true -> List.length blob < overhead ->
  decryptChunk blob dek = Rejected OperationError.
Proof.
  intros Hk Hlen. rewrite (decryptChunk_eq _ _ Hk).
  replace (_ <? _) with true; [reflexivity|].
  symmetry. apply Nat.ltb_lt. rewrite length_skipn.
  unfold overhead, iv_bytes, tag_bytes in *. lia.
Qed.

(** C8. Every call of [encryptChunk] draws its nonce from the entropy
    tape, the twelve bytes at the tape's position, and moves the
    position past them, so that no later call reads them again; the
    nonce drawn is the IV the plaintext is encrypted under and the
    head of the output.  Hence two encryptions of the same plaintext
    under the same key give different blobs exactly when their nonces
    differ. *)
Theorem fresh_nonce_distinct_blobs p k e1 e2 :
  is_DEK k = true ->
  let nonce1 := map (tape e1) (seq (pos e1) 12) in
  let nonce2 := map (tape e2) (seq (pos e2) 12) in
  exists b1 b2,
    encryptChunk p k e1 = (Fulfilled b1, mkEntropy (tape e1) (pos e1 + 12))
    /\ encryptChunk p k e2 = (Fulfilled b2, mkEntropy (tape e2) (pos e2 + 12))
    /\ b1 = nonce1 ++ AES_GCM_encrypt (WebCrypto.material k) nonce1 p
    /\ b2 = nonce2 ++ AES_GCM_encrypt (WebCrypto.material k) nonce2 p
    /\ (nonce1 <> nonce2 <-> b1 <> b2).
Proof.
  intros Hk nonce1 nonce2.
  rewrite !(encryptChunk_eq _ _ _ Hk).
  change (fst (getRandomValues 12 e1)) with nonce1.
  change (fst (getRandomValues 12 e2)) with nonce2.
  eexists _, _. split; [reflexivity|]. split; [reflexivity|].
  split; [reflexivity|]. split; [reflexivity|].
  assert (Hhead : forall e c,
             firstn 12 (map (tape e) (seq (pos e) 12) ++ c)
             = map (tape e) (seq (pos e) 12)).
  { intros e c. apply firstn_all_app. now rewrite length_map, length_seq. }
  split.
  - intros Hne Heq. apply Hne.
    apply (f_equal (firstn 12)) in Heq. unfold nonce1, nonce2 in Heq.
    now rewrite !Hhead in Heq.
  - intros Hne Heq. apply Hne. now rewrite Heq.
Qed.

End Shape.

Section RoundTrip.
Context {P : Platform} {S : PlatformSpec P}.

Lemma decryptChunk_accepts p k e blob :
  is_DEK k = true ->
  fst (encryptChunk p k e) = Fulfilled blob ->
  decryptChunk blob k = Fulfilled p.
Proof.
  intros Hk. destruct (is_DEK_inv k Hk) as (_ & _ & _ & Hlen).
  rewrite (encryptChunk_eq _ _ _ Hk). cbn [fst]. intros H.
  apply (f_equal (settled [])) in H. cbn [settled] in H. subst blob.
  pose proof (getRandomValues_length 12 e) as Hiv.
  rewrite (decryptChunk_eq _ _ Hk).
  rewrite firstn_all_app, skipn_all_app by now rewrite Hiv.
  rewrite gcm_encrypt_length by assumption.
  replace (_ <? _) with false
    by (symmetry; apply Nat.ltb_ge; unfold tag_bytes; lia).
  now rewrite gcm_decrypt_encrypt.
Qed.

Lemma encryptChunk_length p k e blob :
  is_DEK k = true ->
  fst (encryptChunk p k e) = Fulfilled blob ->
  List.length blob = List.length p + overhead.
Proof.
  intros Hk. destruct (is_DEK_inv k Hk) as (_ & _ & _ & Hlen).
  rewrite (encryptChunk_eq _ _ _ Hk). cbn [fst]. intros H.
  apply (f_equal (settled [])) in H. cbn [settled] in H. subst blob.
  pose proof (getRandomValues_length 12 e) as Hiv.
  rewrite length_app, gcm_encrypt_length, Hiv by assumption.
  unfold overhead, iv_bytes. lia.
Qed.

(** C1. Decrypting what [encryptChunk] returns, with the same DEK,
    gives back the plaintext. *)
Theorem decryptChunk_encryptChunk p k e :
  is_DEK k = true ->
  exists blob,
    fst (encryptChunk p k e) = Fulfilled blob
    /\ decryptChunk blob k = Fulfilled p.
Proof.
  intros Hk.
  destruct (encryptChunk p k e) as [[blob|x] e'] eqn:E.
  - exists blob. split; [reflexivity|].
    apply (decryptChunk_accepts p k e blob Hk). now rewrite E.
  - rewrite (encryptChunk_eq _ _ _ Hk) in E. discriminate.
Qed.

Lemma decryptChunk_length blob k q :
  is_DEK k = true ->
  decryptChunk blob k = Fulfilled q ->
  List.length blob = List.length q + overhead.
Proof.
  intros Hk. destruct (is_DEK_inv k Hk) as (_ & _ & _ & Hlen).
  rewrite (decryptChunk_eq _ _ Hk).
  destruct (_ <? _) eqn:E; [discriminate|].
  apply Nat.ltb_ge in E. rewrite length_skipn in E. unfold tag_bytes in E.
  destruct (AES_GCM_decrypt _ _ _) as [p|] eqn:D; [|discriminate].
  intros [= ->].
  assert (Hiv : List.length (firstn 12 blob) = iv_bytes)
    by (rewrite length_firstn; unfold iv_bytes; lia).
  apply gcm_decrypt_inv in D; trivial.
  apply (f_equal (@List.length byte)) in D.
  rewrite gcm_encrypt_length, length_skipn in D by assumption.
  unfold overhead, iv_bytes, tag_bytes in *. lia.
Qed.

(** [decryptChunk] has two outcomes: it rejects the blob with
    [OperationError], or it returns a plaintext of which the blob is
    the encryption under the blob's own first twelve bytes.  Whether
    a blob that was tampered with still verifies is AES-GCM's matter,
    not the library's: every byte of the blob goes to the
    verification. *)
Lemma decryptChunk_verdict blob k :
  is_DEK k = true ->
  decryptChunk blob k = Rejected OperationError
  \/ exists p,
       decryptChunk blob k = Fulfilled p
       /\ blob = firstn 12 blob
                 ++ AES_GCM_encrypt (WebCrypto.material k) (firstn 12 blob) p.
Proof.
  intros Hk. destruct (is_DEK_inv k Hk) as (_ & _ & _ & Hlen).
  rewrite (decryptChunk_eq _ _ Hk).
  destruct (_ <? _) eqn:E; [now left|].
  apply Nat.ltb_ge in E. rewrite length_skipn in E. unfold tag_bytes in E.
  destruct (AES_GCM_decrypt _ _ _) as [p|] eqn:D; [|now left].
  right. exists p. split; [reflexivity|].
  apply gcm_decrypt_inv in D; trivial.
  - rewrite <- D. symmetry. apply firstn_skipn.
  - rewrite length_firstn. unfold iv_bytes. lia.
Qed.

(** C10. The blob [encryptChunk] returns is 28 bytes longer than the
    plaintext, and [decryptChunk] gives that plaintext back for it;
    whatever blob [decryptChunk] accepts is 28 bytes longer than the
    plaintext it returns, and a blob of fewer than 28 bytes is
    rejected. *)
Theorem chunk_overhead p k e :
  is_DEK k = true ->
  (exists blob,
      fst (encryptChunk p k e) = Fulfilled blob
      /\ List.length blob = List.length p + 28
      /\ decryptChunk blob k = Fulfilled p)
  /\ (forall blob q,
         decryptChunk blob k = Fulfilled q ->
         List.length blob = List.length q + 28)
  /\ (forall blob,
         List.length blob < 28 -> decryptChunk blob k = Rejected OperationError).
Proof.
  intros Hk. split; [|split].
  - destruct (encryptChunk p k e) as [[blob|x] e'] eqn:E.
    + exists blob. split; [reflexivity|]. split.
      * apply (encryptChunk_length p k e blob Hk). now rewrite E.
      * apply (decryptChunk_accepts p k e blob Hk). now rewrite E.
    + rewrite (encryptChunk_eq _ _ _ Hk) in E. discriminate.
  - intros blob q Hd. now apply (decryptChunk_length blob k q Hk).
  - intros blob Hshort. now apply decryptChunk_short.
Qed.

End RoundTrip.

End ChunkCipher.

(** ** The key wrapper, [wrapDEK] and [unwrapDEK] *)

Module KeyWrapper.
Import Crypto.

Section Facts.
Context {P : Platform}.

(** Both functions name the algorithm by the bare string ['AES-GCM']:
    the required [iv] is missing, and the call is rejected when the
    algorithm is normalized, before any key is looked at. *)
Lemma wrapDEK_TypeError dek kek : wrapDEK dek kek = Rejected TypeError.
Proof. reflexivity. Qed.

Lemma unwrapDEK_TypeError wrapped kek : unwrapDEK wrapped kek = Rejected TypeError.
Proof. reflexivity. Qed.

(** C2, on the code: wrapping and then unwrapping a DEK never returns a
    key, whatever the DEK and the KEK; the rejection is the
    [TypeError] of [wrapKey], raised before a nonce is drawn or a byte
    is encrypted. *)
Theorem unwrap_of_wrap_rejected dek kek :
  (wrapped <- wrapDEK dek kek ;; unwrapDEK wrapped kek)%promise
  = Rejected TypeError.
Proof. reflexivity. Qed.

End Facts.

Section WithIv.
Context {P : Platform} {S : PlatformSpec P}.

(** The same two Web Crypto methods, handed an [iv] the way
    [encryptChunk] hands one to [encrypt], do wrap and unwrap. *)
Lemma unwrapKey_wrapKey_with_iv dek kek nonce :
  is_DEK dek = true -> is_KEK kek = true ->
  WebCrypto.extractable dek = true ->
  List.length nonce = iv_bytes ->
  (wrapped <- WebCrypto.wrapKey_raw dek kek (WebCrypto.alg_AesGcm nonce) ;;
   WebCrypto.unwrapKey_raw wrapped kek (WebCrypto.alg_AesGcm nonce)
     (WebCrypto.alg_AesKey 256) true
     [WebCrypto.encrypt_usage; WebCrypto.decrypt_usage])%promise
  = Fulfilled (WebCrypto.mkKey WebCrypto.AES_GCM true
                 [WebCrypto.encrypt_usage; WebCrypto.decrypt_usage]
                 (WebCrypto.material dek)).
Proof.
  intros Hd Hk Hx Hn.
  destruct (ChunkCipher.is_DEK_inv dek Hd) as (Hda & _ & _ & Hdl).
  unfold is_KEK in Hk. rewrite !andb_true_iff, Nat.eqb_eq in Hk.
  destruct Hk as [[[Ha Hw] Hu] Hkl].
  unfold WebCrypto.wrapKey_raw, WebCrypto.unwrapKey_raw, WebCrypto.normalize_wrap.
  cbn [WebCrypto.normalize_AesGcmParams WebCrypto.alg_AesGcm WebCrypto.name
       WebCrypto.iv await].
  destruct (WebCrypto.algorithm kek); [|discriminate].
  rewrite Hw, Hu, Hx, Hda. cbn [WebCrypto.AlgName_eqb negb await].
  rewrite gcm_encrypt_length by assumption.
  replace (_ <? _) with false
    by (symmetry; apply Nat.ltb_ge; unfold tag_bytes; lia).
  rewrite gcm_decrypt_encrypt by assumption.
  unfold WebCrypto.importKey_raw, WebCrypto.import_raw_AesGcm.
  cbn [WebCrypto.alg_AesKey WebCrypto.name]. rewrite Hdl. reflexivity.
Qed.

End WithIv.

End KeyWrapper.

(** ** Key derivation, [getKEK] *)

Module KDF.
Import Crypto Encoding.

Section Facts.
Context {P : Platform} {S : PlatformSpec P}.

(** [getKEK] is PBKDF2-HMAC-SHA-256, 100000 iterations, of the UTF-8
    encodings of its two arguments; no input is refused. *)
Lemma getKEK_eq password salt :
  getKEK password salt =
    Fulfilled (WebCrypto.mkKey WebCrypto.AES_GCM true
                 [WebCrypto.wrapKey_usage; WebCrypto.unwrapKey_usage]
                 (PBKDF2_HMAC SHA_256 (TextEncoder_encode password)
                    (TextEncoder_encode salt) 100000 32)).
Proof.
  unfold getKEK, deriveKeyFromPassword, WebCrypto.importKey_raw.
  cbn [WebCrypto.alg_string WebCrypto.name forallb negb andb await].
  unfold WebCrypto.deriveKey.
  cbn [WebCrypto.alg_Pbkdf2 WebCrypto.alg_AesKey WebCrypto.name WebCrypto.salt
       WebCrypto.iterations WebCrypto.hash WebCrypto.length WebCrypto.algorithm
       WebCrypto.usages WebCrypto.AlgName_eqb negb].
  change (WebCrypto.has_usage WebCrypto.deriveKey_usage [WebCrypto.deriveKey_usage])
    with true.
  change (WebCrypto.aes_key_bits 256) with true. cbn [negb].
  unfold WebCrypto.deriveBits_Pbkdf2.
  change ((256 =? 0)%N || negb (256 mod 8 =? 0)%N) with false.
  change (100000 =? 0)%N with false.
  change (N.to_nat (256 / 8)) with 32.
  cbn [await WebCrypto.material]. unfold WebCrypto.import_raw_AesGcm.
  rewrite pbkdf2_length. reflexivity.
Qed.

Lemma getKEK_is_KEK password salt :
  exists kek, getKEK password salt = Fulfilled kek /\ is_KEK kek = true.
Proof.
  rewrite getKEK_eq. eexists. split; [reflexivity|].
  unfold is_KEK. cbn [WebCrypto.algorithm WebCrypto.usages WebCrypto.material].
  rewrite pbkdf2_length. reflexivity.
Qed.

(** C6, as the code has it.  [getKEK] is a function of the UTF-8
    encodings of password and salt: the same inputs, or any inputs
    with the same encodings, give the same KEK; and two KEKs differ
    exactly when PBKDF2 tells the encoded inputs apart. *)
Theorem kek_of_encoded_inputs password1 salt1 password2 salt2 :
  exists k1 k2,
    getKEK password1 salt1 = Fulfilled k1
    /\ getKEK password2 salt2 = Fulfilled k2
    /\ (TextEncoder_encode password1 = TextEncoder_encode password2 ->
        TextEncoder_encode salt1 = TextEncoder_encode salt2 -> k1 = k2)
    /\ (k1 <> k2 <->
        PBKDF2_HMAC SHA_256 (TextEncoder_encode password1)
          (TextEncoder_encode salt1) 100000 32
        <> PBKDF2_HMAC SHA_256 (TextEncoder_encode password2)
             (TextEncoder_encode salt2) 100000 32).
Proof.
  rewrite !getKEK_eq. eexists _, _.
  split; [reflexivity|]. split; [reflexivity|]. split.
  - now intros -> ->.
  - split; intros H E; apply H; [now rewrite E|].
    now apply (f_equal WebCrypto.material) in E.
Qed.

End Facts.

(** C6, counterexample to the second half as stated: two salts that
    differ, two lone surrogates, and one KEK. *)
Lemma distinct_salts_same_kek :
  [0xD800%N] <> [0xD801%N]
  /\ forall (P : Platform) password,
       getKEK password [0xD800%N] = getKEK password [0xD801%N].
Proof. split; [discriminate|reflexivity]. Qed.

(** C7, counterexample: the empty password with the empty salt gets a
    KEK. *)
Lemma empty_password_and_salt_accepted :
  exists kek,
    getKEK (P := Toy.platform) [] [] = Fulfilled kek /\ is_KEK kek = true.
Proof. eexists. split; reflexivity. Qed.

End KDF.

(** ** Wire format *)

Module WireFormat.
Import Crypto.

Section Facts.
Context {P : Platform} {S : PlatformSpec P}.

(** C4, on the code.  A chunk blob (and the filename is a chunk) is
    laid out as nonce, ciphertext, tag: [encryptChunk] puts the twelve
    fresh bytes in front of the AES-GCM output, which is 16 bytes
    longer than the plaintext, and [decryptChunk] reads the first
    twelve bytes as the IV and hands the rest to AES-GCM.  A wrapped
    DEK has no such layout: [wrapDEK] draws no nonce and returns no
    blob, and [unwrapDEK] parses none. *)
Theorem blob_layout p k kek e :
  is_DEK k = true ->
  (exists nonce body,
      encryptChunk p k e
      = (Fulfilled (nonce ++ body), mkEntropy (tape e) (pos e + 12))
      /\ nonce = map (tape e) (seq (pos e) 12)
      /\ List.length nonce = 12
      /\ body = AES_GCM_encrypt (WebCrypto.material k) nonce p
      /\ List.length body = List.length p + 16)
  /\ (forall blob,
         decryptChunk blob k
         = WebCrypto.decrypt (WebCrypto.alg_AesGcm (firstn 12 blob)) k (skipn 12 blob))
  /\ wrapDEK k kek = Rejected TypeError
  /\ (forall wrapped, unwrapDEK wrapped kek = Rejected TypeError).
Proof.
  intros Hk. destruct (ChunkCipher.is_DEK_inv k Hk) as (_ & _ & _ & Hlen).
  split; [|split; [reflexivity|split; [reflexivity|reflexivity]]].
  rewrite (ChunkCipher.encryptChunk_eq p k e Hk).
  pose proof (getRandomValues_length 12 e) as Hiv.
  exists (fst (getRandomValues 12 e)), (AES_GCM_encrypt (WebCrypto.material k)
                                       (fst (getRandomValues 12 e)) p).
  repeat split; trivial.
  now rewrite gcm_encrypt_length.
Qed.


End Facts.

End WireFormat.

(** ** The handlers *)

Module Orchestrator.

Lemma nth_error_update_nth {A : Type} (f : A -> A) (l : list A) i x :
  nth_error l i = Some x ->
  nth_error (Backend.update_nth i f l) i = Some (f x).
Proof.
  revert i. induction l as [|y l IH]; intros [|i]; simpl; try discriminate.
  - now intros [= ->].
  - apply IH.
Qed.

Lemma bind_ext {A B : Type} (m : Async A) (k1 k2 : A -> Async B) w :
  (forall a w', k1 a w' = k2 a w') -> bind m k1 w = bind m k2 w.
Proof.
  intros H. unfold bind. destruct (m w) as [[a|e] w']; [apply H|reflexivity].
Qed.

Lemma axios_read_only {A : Type} (r : Backend.Request A) w :
  (forall s, snd (r s) = s) -> axios r w = (fst (r (server w)), w).
Proof.
  intros H. destruct w as [tk sv en sh sa up pr]. unfold axios. cbn.
  specialize (H sv). destruct (r sv) as [p s']. cbn in *. now subst s'.
Qed.

Lemma get_salt_read_only tok s : snd (Backend.get_salt tok s) = s.
Proof.
  unfold Backend.get_salt, Backend.served. now destruct (Backend.reachable s).
Qed.

Lemma download_content_read_only tok fileId s :
  snd (Backend.download_content tok fileId s) = s.
Proof.
  unfold Backend.download_content, Backend.served.
  destruct (Backend.reachable s); [|reflexivity].
  now destruct (nth_error _ _).
Qed.

Lemma CHUNK_SIZE_pos : (0 < FileUpload.CHUNK_SIZE)%N.
Proof. reflexivity. Qed.

(** *** Slicing *)

Lemma Blob_slice_eq offset b :
  (offset < N.of_nat (List.length b))%N ->
  Blob_slice offset (offset + FileUpload.CHUNK_SIZE) b
  = firstn (N.to_nat FileUpload.CHUNK_SIZE) (skipn (N.to_nat offset) b).
Proof.
  intros Hlt. unfold Blob_slice. cbv zeta.
  rewrite (N.min_l offset) by lia.
  pose proof CHUNK_SIZE_pos as Hpos.
  destruct (N.le_gt_cases (offset + FileUpload.CHUNK_SIZE) (N.of_nat (List.length b)))
    as [Hle|Hgt].
  - rewrite N.min_l by lia. f_equal. lia.
  - rewrite N.min_r by lia.
    rewrite !firstn_all2; trivial; rewrite length_skipn; lia.
Qed.

Lemma slices_past_end turns offset b :
  (N.of_nat (List.length b) <= offset)%N -> FileUpload.slices turns offset b = [].
Proof.
  intros Hle. destruct turns; [reflexivity|]. simpl.
  apply N.ltb_ge in Hle. now rewrite Hle.
Qed.

(** Given turns enough, the slices are the file, cut in order. *)
Lemma concat_slices turns : forall offset b,
  ((N.of_nat (List.length b) - offset) / FileUpload.CHUNK_SIZE < N.of_nat turns)%N ->
  List.concat (FileUpload.slices turns offset b) = skipn (N.to_nat offset) b.
Proof.
  pose proof CHUNK_SIZE_pos as Hpos.
  induction turns as [|turns IH]; intros offset b Hturns;
    [now apply N.nlt_0_r in Hturns|].
  cbn [FileUpload.slices].
  destruct (offset <? N.of_nat (List.length b))%N eqn:E.
  - apply N.ltb_lt in E. cbn [List.concat].
    rewrite (Blob_slice_eq offset b E).
    destruct (N.le_gt_cases (N.of_nat (List.length b)) (offset + FileUpload.CHUNK_SIZE))
      as [Hle|Hgt].
    + rewrite (slices_past_end turns _ b Hle). cbn [List.concat].
      rewrite app_nil_r. apply firstn_all2. rewrite length_skipn. lia.
    + rewrite IH.
      * replace (N.to_nat (offset + FileUpload.CHUNK_SIZE))
          with (N.to_nat FileUpload.CHUNK_SIZE + N.to_nat offset) by lia.
        rewrite <- skipn_skipn. apply firstn_skipn.
      * replace (N.of_nat (List.length b) - offset)%N
          with ((N.of_nat (List.length b) - (offset + FileUpload.CHUNK_SIZE))
                + 1 * FileUpload.CHUNK_SIZE)%N in Hturns by lia.
        rewrite N.div_add in Hturns by lia.
        set (q := (_ / _)%N) in *. lia.
  - apply N.ltb_ge in E. cbn [List.concat]. symmetry.
    apply skipn_all2. lia.
Qed.

Lemma concat_slices_file (f : File) :
  List.concat (FileUpload.slices (FileUpload.turns_for f) 0 (file_bytes f))
  = file_bytes f.
Proof.
  rewrite concat_slices; [reflexivity|].
  unfold FileUpload.turns_for, file_size. rewrite N.sub_0_r.
  set (q := (_ / _)%N). lia.
Qed.

Lemma slices_empty_file (f : File) :
  file_size f = 0%N ->
  FileUpload.slices (FileUpload.turns_for f) 0 (file_bytes f) = [].
Proof.
  intros H. apply slices_past_end. unfold file_size in H. lia.
Qed.

Lemma slices_large_file (f : File) :
  (FileUpload.CHUNK_SIZE < file_size f)%N ->
  2 <= List.length (FileUpload.slices (FileUpload.turns_for f) 0 (file_bytes f)).
Proof.
  intros Hbig. unfold FileUpload.turns_for.
  pose proof CHUNK_SIZE_pos as Hpos.
  assert (Hq : (1 <= file_size f / FileUpload.CHUNK_SIZE)%N).
  { apply N.div_le_lower_bound; lia. }
  destruct (N.to_nat (file_size f / FileUpload.CHUNK_SIZE)) as [|n] eqn:En; [lia|].
  unfold file_size in *. cbn [FileUpload.slices].
  replace (0 <? _)%N with true by (symmetry; apply N.ltb_lt; lia).
  rewrite N.add_0_l.
  replace (FileUpload.CHUNK_SIZE <? _)%N with true by (symmetry; now apply N.ltb_lt).
  simpl. lia.
Qed.

(** *** The upload loop, run with the library *)

Section Upload.
Context {P : Platform}.

Lemma upload_chunks_run file dek tok fileId turns :
  Crypto.is_DEK dek = true ->
  forall offset w u,
    Backend.reachable (server w) = true ->
    nth_error (Backend.uploads (server w)) (N.to_nat fileId) = Some u ->
    exists w' blobs,
      FileUpload.upload_chunks (L := lib_crypto P) turns file dek tok fileId offset w
      = (Fulfilled tt, w')
      /\ Backend.reachable (server w') = true
      /\ nth_error (Backend.uploads (server w')) (N.to_nat fileId)
         = Some (Backend.mkUpload (Backend.meta u) (Backend.chunks u ++ blobs)
                   (Backend.completed u))
      /\ Forall2 (encrypts dek) blobs
           (FileUpload.slices turns offset (file_bytes file)).
Proof.
  intros Hk. induction turns as [|turns IH]; intros offset w u Hr Hu.
  - exists w, []. cbn. rewrite app_nil_r. destruct u. repeat split; trivial.
  - cbn [FileUpload.upload_chunks FileUpload.slices]. fold (file_size file).
    destruct (offset <? file_size file)%N.
    + unfold bind at 1. unfold of_rand at 1.
      cbn [crypto_encryptChunk lib_crypto].
      rewrite (ChunkCipher.encryptChunk_eq _ dek (entropy w) Hk).
      set (blob := fst (getRandomValues 12 (entropy w)) ++ _).
      set (e' := snd (getRandomValues 12 (entropy w))).
      cbv iota beta.
      unfold bind at 1. unfold axios at 1.
      unfold Backend.upload_chunk, Backend.served, Backend.with_upload.
      cbn [server]. rewrite Hr, Hu.
      unfold bind at 1. unfold act at 1.
      match goal with
      | |- context [FileUpload.upload_chunks turns file dek tok fileId ?o ?w1] =>
          destruct (IH o w1 (Backend.mkUpload (Backend.meta u)
                               (Backend.chunks u ++ [blob]) (Backend.completed u)))
            as (w' & blobs & Hrun & Hr' & Hu' & Hall)
      end.
      * reflexivity.
      * cbn [server Backend.uploads]. exact (nth_error_update_nth _ _ _ _ Hu).
      * exists w', (blob :: blobs). rewrite Hrun.
        cbn [Backend.meta Backend.chunks Backend.completed] in Hu'.
        rewrite <- app_assoc in Hu'. repeat split; trivial.
        constructor; trivial. exists (entropy w).
        now rewrite (ChunkCipher.encryptChunk_eq _ dek (entropy w) Hk).
    + exists w, []. cbn. rewrite app_nil_r. destruct u. repeat split; trivial.
Qed.

(** The bound on the turns is never what ends the loop. *)
Lemma upload_chunks_past_end (L : CryptoLib) turns file dek tok fileId offset w :
  (file_size file <= offset)%N ->
  FileUpload.upload_chunks turns file dek tok fileId offset w = (Fulfilled tt, w).
Proof.
  intros Hle. destruct turns; [reflexivity|]. cbn [FileUpload.upload_chunks].
  apply N.ltb_ge in Hle. now rewrite Hle.
Qed.

Lemma upload_chunks_turns (L : CryptoLib) file dek tok fileId turns :
  forall offset extra w,
    ((file_size file - offset) / FileUpload.CHUNK_SIZE < N.of_nat turns)%N ->
    FileUpload.upload_chunks (turns + extra) file dek tok fileId offset w
    = FileUpload.upload_chunks turns file dek tok fileId offset w.
Proof.
  pose proof CHUNK_SIZE_pos as Hpos.
  induction turns as [|turns IH]; intros offset extra w Hturns;
    [now apply N.nlt_0_r in Hturns|].
  cbn [FileUpload.upload_chunks Nat.add].
  destruct (offset <? file_size file)%N eqn:E; [|reflexivity].
  apply N.ltb_lt in E.
  apply bind_ext; intros blob w1.
  apply bind_ext; intros _ w2.
  apply bind_ext; intros _ w3.
  destruct (N.le_gt_cases (file_size file) (offset + FileUpload.CHUNK_SIZE))
    as [Hle|Hgt].
  - now rewrite !upload_chunks_past_end.
  - apply IH.
    replace (file_size file - offset)%N
      with ((file_size file - (offset + FileUpload.CHUNK_SIZE))
            + 1 * FileUpload.CHUNK_SIZE)%N in Hturns by lia.
    rewrite N.div_add in Hturns by lia.
    set (q := (_ / _)%N) in *. lia.
Qed.

Lemma upload_chunks_turns_for (L : CryptoLib) file dek tok fileId extra w :
  FileUpload.upload_chunks (FileUpload.turns_for file + extra) file dek tok fileId 0 w
  = FileUpload.upload_chunks (FileUpload.turns_for file) file dek tok fileId 0 w.
Proof.
  apply upload_chunks_turns. unfold FileUpload.turns_for. rewrite N.sub_0_r.
  set (q := (_ / _)%N). lia.
Qed.

End Upload.

Section UploadDownload.
Context {P : Platform} {S : PlatformSpec P}.

(** Each stored blob decrypts, on its own, to its slice. *)
Lemma stored_blobs_decrypt dek blobs slices :
  Crypto.is_DEK dek = true ->
  Forall2 (encrypts dek) blobs slices ->
  Forall2 (fun blob slice => Crypto.decryptChunk blob dek = Fulfilled slice)
          blobs slices.
Proof.
  intros Hk Hall. induction Hall as [|blob slice blobs slices [e He] _ IH];
    constructor; trivial.
  now apply (ChunkCipher.decryptChunk_accepts slice dek e blob).
Qed.

(** Stored, every slice has grown by the 28 bytes of its own nonce and
    tag. *)
Lemma stored_blobs_length dek blobs slices :
  Crypto.is_DEK dek = true ->
  Forall2 (encrypts dek) blobs slices ->
  List.length (List.concat blobs)
  = List.length (List.concat slices) + 28 * List.length slices.
Proof.
  intros Hk Hall. induction Hall as [|blob slice blobs slices [e He] _ IH];
    [reflexivity|].
  cbn [List.concat List.length]. rewrite !length_app, IH.
  rewrite (ChunkCipher.encryptChunk_length slice dek e blob Hk He).
  unfold overhead, iv_bytes, tag_bytes. lia.
Qed.

(** Decrypted one by one, as they were encrypted, the stored blobs give
    back the file. *)
Lemma stored_blobs_give_file file dek blobs :
  Crypto.is_DEK dek = true ->
  Forall2 (encrypts dek) blobs
          (FileUpload.slices (FileUpload.turns_for file) 0 (file_bytes file)) ->
  exists plain,
    Forall2 (fun blob slice => Crypto.decryptChunk blob dek = Fulfilled slice)
            blobs plain
    /\ List.concat plain = file_bytes file.
Proof.
  intros Hk Hall. eexists. split.
  - apply (stored_blobs_decrypt dek blobs _ Hk Hall).
  - apply concat_slices_file.
Qed.

(** A file of one slice is the one case in which the single
    [decryptChunk] of [handleDownload] meets a single blob. *)
Lemma single_chunk_download file dek tok fileId w u :
  Crypto.is_DEK dek = true ->
  Backend.reachable (server w) = true ->
  nth_error (Backend.uploads (server w)) (N.to_nat fileId) = Some u ->
  Backend.chunks u = [] ->
  (0 < file_size file <= FileUpload.CHUNK_SIZE)%N ->
  exists w' data,
    FileUpload.upload_chunks (L := lib_crypto P) (FileUpload.turns_for file)
      file dek tok fileId 0 w = (Fulfilled tt, w')
    /\ fst (Backend.download_content tok fileId (server w')) = Fulfilled data
    /\ Crypto.decryptChunk data dek = Fulfilled (file_bytes file).
Proof.
  intros Hk Hr Hu Hfresh [Hpos Hle].
  destruct (upload_chunks_run file dek tok fileId (FileUpload.turns_for file) Hk
              0%N w u Hr Hu) as (w' & blobs & Hrun & Hr' & Hu' & Hall).
  exists w', (List.concat blobs). split; [exact Hrun|].
  rewrite Hfresh in Hu'. cbn [app] in Hu'.
  split.
  - unfold Backend.download_content, Backend.served. now rewrite Hr', Hu'.
  - unfold FileUpload.turns_for in Hall. cbn [FileUpload.slices] in Hall.
    unfold file_size in *.
    replace (0 <? _)%N with true in Hall by (symmetry; now apply N.ltb_lt).
    rewrite N.add_0_l in Hall.
    rewrite slices_past_end in Hall by assumption.
    inversion Hall as [|blob slice blobs' slices' [e He] Hnil]; subst.
    inversion Hnil; subst. cbn [List.concat]. rewrite app_nil_r.
    apply (ChunkCipher.decryptChunk_accepts _ dek e blob Hk).
    rewrite <- He. do 2 f_equal.
    unfold Blob_slice. cbv zeta. rewrite N.min_r, N.min_l by lia.
    rewrite N.sub_0_r. cbn [N.to_nat skipn]. symmetry. apply firstn_all2. lia.
Qed.

(** What [handleDrop] does with the library as it is: [wrapDEK] is
    rejected at step 3, before the first request that writes. *)
Lemma handleDrop_server files answer w :
  server (FileUpload.handleDrop (L := lib_crypto P) files answer w) = server w.
Proof.
  unfold FileUpload.handleDrop. destruct (truthy (token w)) as [tok|]; [|reflexivity].
  unfold finally, try_catch, bind at 1, of_keygen at 1.
  destruct (crypto_generateDEK _) as [[dek|x] g]; [|reflexivity].
  destruct (truthy answer) as [password|]; [|reflexivity].
  unfold bind at 1, axios at 1, Backend.get_salt, Backend.served.
  cbn [server setUploading].
  destruct (Backend.reachable (server w)); [|reflexivity].
  unfold bind at 1, of_promise at 1.
  destruct (crypto_getKEK _ _) as [kek|x]; reflexivity.
Qed.

Lemma handleDrop_fails files answer w tok password :
  truthy (token w) = Some tok -> truthy answer = Some password ->
  shown (FileUpload.handleDrop (L := lib_crypto P) files answer w)
  = shown w ++ [FileUpload.upload_failed TypeError].
Proof.
  intros Ht Ha. unfold FileUpload.handleDrop. rewrite Ht, Ha.
  unfold finally, try_catch, bind at 1, of_keygen at 1.
  cbn [crypto_generateDEK lib_crypto].
  unfold Crypto.generateDEK, WebCrypto.generateKey, generate_key_bytes.
  cbn [WebCrypto.alg_AesKey WebCrypto.name WebCrypto.length
       WebCrypto.aes_usages_ok forallb andb negb].
  change (WebCrypto.aes_key_bits 256) with true. cbn [negb].
  destruct (outcomes _ _) as [f|]; [|reflexivity].
  unfold bind at 1, axios at 1, Backend.get_salt, Backend.served.
  cbn [server setUploading].
  destruct (Backend.reachable (server w)); [|reflexivity].
  unfold bind at 1, of_promise at 1.
  cbn [crypto_getKEK lib_crypto]. rewrite KDF.getKEK_eq. reflexivity.
Qed.

(** The loop of step 6 against the one [decryptChunk] of the download,
    each taken alone: the loop stores one blob per 4 MiB slice, each
    with a nonce and a tag of its own, and a single [decryptChunk] of
    their concatenation cannot return the file when the file is empty
    or has more than one slice. *)
Lemma whole_content_mismatch file dek tok fileId w u :
  Crypto.is_DEK dek = true ->
  Backend.reachable (server w) = true ->
  nth_error (Backend.uploads (server w)) (N.to_nat fileId) = Some u ->
  Backend.chunks u = [] ->
  file_size file = 0%N \/ (FileUpload.CHUNK_SIZE < file_size file)%N ->
  exists w' data,
    FileUpload.upload_chunks (L := lib_crypto P) (FileUpload.turns_for file)
      file dek tok fileId 0 w = (Fulfilled tt, w')
    /\ fst (Backend.download_content tok fileId (server w')) = Fulfilled data
    /\ Crypto.decryptChunk data dek <> Fulfilled (file_bytes file).
Proof.
  intros Hk Hr Hu Hfresh Hsize.
  destruct (upload_chunks_run file dek tok fileId (FileUpload.turns_for file) Hk
              0%N w u Hr Hu) as (w' & blobs & Hrun & Hr' & Hu' & Hall).
  exists w', (List.concat blobs). split; [exact Hrun|].
  rewrite Hfresh in Hu'. cbn [app] in Hu'.
  split.
  - unfold Backend.download_content, Backend.served. now rewrite Hr', Hu'.
  - destruct Hsize as [Hempty|Hbig].
    + rewrite (slices_empty_file file Hempty) in Hall. inversion Hall; subst.
      cbn [List.concat].
      rewrite ChunkCipher.decryptChunk_short; [discriminate|trivial|].
      unfold overhead, iv_bytes, tag_bytes. simpl. lia.
    + intros Hd.
      apply (ChunkCipher.decryptChunk_length _ dek _ Hk) in Hd.
      rewrite (stored_blobs_length dek blobs _ Hk Hall) in Hd.
      rewrite concat_slices_file in Hd.
      pose proof (slices_large_file file Hbig).
      unfold overhead, iv_bytes, tag_bytes in Hd. lia.
Qed.

End UploadDownload.

(** *** The download *)

Section Download.
Context {P : Platform} {L : CryptoLib}.

Lemma handleDownload_no_password file answer w tok :
  truthy (token w) = Some tok -> truthy answer = None ->
  FileList.handleDownload file answer w = show FileList.password_required w.
Proof.
  intros Ht Ha. unfold FileList.handleDownload. now rewrite Ht, Ha.
Qed.

(** C7, as the code has it.  [getKEK] refuses nothing: every password,
    the empty one too, and every salt, whatever its length, gets a
    KEK.  The one check on the password is the handlers': when the
    prompt gives [null] or the empty string they say so and stop;
    [handleDrop] has made its DEK by then, and no key is derived. *)
Theorem no_kdf_input_validation {S : PlatformSpec P} :
  (forall password salt,
      exists kek,
        Crypto.getKEK password salt = Fulfilled kek /\ Crypto.is_KEK kek = true)
  /\ (forall file answer w tok,
         truthy (token w) = Some tok -> truthy answer = None ->
         FileList.handleDownload file answer w
         = show FileList.password_required w)
  /\ (forall files answer w tok dek g,
         truthy (token w) = Some tok -> truthy answer = None ->
         Crypto.generateDEK (keygen w) = (Fulfilled dek, g) ->
         FileUpload.handleDrop (L := lib_crypto P) files answer w
         = mkWorld (token w) (server w) (entropy w) g
                   (shown w ++ [FileUpload.password_required]) (saved w) false 0).
Proof.
  split; [apply KDF.getKEK_is_KEK|].
  split; [apply handleDownload_no_password|].
  intros files answer w tok dek g Ht Ha Hg.
  unfold FileUpload.handleDrop. rewrite Ht, Ha.
  unfold finally, try_catch, bind at 1, of_keygen at 1.
  cbn [crypto_generateDEK lib_crypto keygen setUploading]. rewrite Hg.
  reflexivity.
Qed.

(** [handleDownload], step by step. *)
Lemma handleDownload_eq file answer w :
  FileList.handleDownload file answer w =
    match truthy (token w) with
    | None => w
    | Some tok =>
    match truthy answer with
    | None => show FileList.password_required w
    | Some password =>
    match fst (Backend.get_salt tok (server w)) with
    | Rejected _ => show FileList.download_failed w
    | Fulfilled salt =>
    match crypto_getKEK password salt with
    | Rejected _ => show FileList.download_failed w
    | Fulfilled kek =>
    match crypto_unwrapDEK (wrapped_dek file) kek with
    | Rejected _ => show FileList.download_failed w
    | Fulfilled dek =>
    match crypto_decryptChunk (original_filename_encrypted file) dek with
    | Rejected _ => show FileList.download_failed w
    | Fulfilled name =>
    match fst (Backend.download_content tok (id file) (server w)) with
    | Rejected _ => show FileList.download_failed w
    | Fulfilled data =>
    match crypto_decryptChunk data dek with
    | Rejected _ => show FileList.download_failed w
    | Fulfilled content =>
        save (mkSaved (TextDecoder_decode name) (mime_type file) content) w
    end end end end end end end end.
Proof.
  unfold FileList.handleDownload.
  destruct (truthy (token w)) as [tok|]; [|reflexivity].
  destruct (truthy answer) as [password|]; [|reflexivity].
  unfold try_catch, bind at 1. rewrite axios_read_only by apply get_salt_read_only.
  destruct (fst (Backend.get_salt tok (server w))) as [salt|x]; [|reflexivity].
  unfold bind at 1, of_promise at 1.
  destruct (crypto_getKEK password salt) as [kek|x]; [|reflexivity].
  unfold bind at 1, of_promise at 1.
  destruct (crypto_unwrapDEK (wrapped_dek file) kek) as [dek|x]; [|reflexivity].
  unfold bind at 1, of_promise at 1.
  destruct (crypto_decryptChunk (original_filename_encrypted file) dek)
    as [name|x]; [|reflexivity].
  unfold bind at 1. rewrite axios_read_only by apply download_content_read_only.
  destruct (fst (Backend.download_content tok (id file) (server w))) as [data|x];
    [|reflexivity].
  unfold bind at 1, of_promise at 1.
  destruct (crypto_decryptChunk data dek) as [content|x]; reflexivity.
Qed.

(** C9. Once the salt is fetched and the KEK derived, a rejection at
    the unwrap step, at the filename step or at the content step
    ends [handleDownload]: the world it leaves is the world it found
    plus the one fixed notification; nothing is saved, neither
    content nor filename, whole or in part. *)
Theorem download_aborted file answer w tok password salt kek :
  truthy (token w) = Some tok ->
  truthy answer = Some password ->
  fst (Backend.get_salt tok (server w)) = Fulfilled salt ->
  crypto_getKEK password salt = Fulfilled kek ->
  (exists e, crypto_unwrapDEK (wrapped_dek file) kek = Rejected e)
  \/ (exists dek e,
        crypto_unwrapDEK (wrapped_dek file) kek = Fulfilled dek
        /\ crypto_decryptChunk (original_filename_encrypted file) dek = Rejected e)
  \/ (exists dek name data e,
        crypto_unwrapDEK (wrapped_dek file) kek = Fulfilled dek
        /\ crypto_decryptChunk (original_filename_encrypted file) dek
           = Fulfilled name
        /\ fst (Backend.download_content tok (id file) (server w)) = Fulfilled data
        /\ crypto_decryptChunk data dek = Rejected e) ->
  FileList.handleDownload file answer w = show FileList.download_failed w
  /\ saved (FileList.handleDownload file answer w) = saved w.
Proof.
  intros Ht Ha Hs Hk Hfail.
  assert (Hgoal : FileList.handleDownload file answer w
                  = show FileList.download_failed w); [|now rewrite Hgoal].
  rewrite handleDownload_eq, Ht, Ha, Hs, Hk.
  destruct Hfail as [(e & Hu) | [(dek & e & Hu & Hn)
                    | (dek & name & data & e & Hu & Hn & Hd & Hc)]];
    rewrite Hu; [reflexivity| |].
  - now rewrite Hn.
  - now rewrite Hn, Hd, Hc.
Qed.

(** The only thing [handleDownload] ever saves is the whole decrypted
    content under the decrypted filename, all steps having passed. *)
Lemma handleDownload_saved file answer w :
  saved (FileList.handleDownload file answer w) = saved w
  \/ exists kek dek name data content,
       crypto_unwrapDEK (wrapped_dek file) kek = Fulfilled dek
       /\ crypto_decryptChunk (original_filename_encrypted file) dek = Fulfilled name
       /\ crypto_decryptChunk data dek = Fulfilled content
       /\ saved (FileList.handleDownload file answer w)
          = saved w ++ [mkSaved (TextDecoder_decode name) (mime_type file) content].
Proof.
  rewrite handleDownload_eq.
  destruct (truthy (token w)) as [tok|]; [|now left].
  destruct (truthy answer) as [password|]; [|now left].
  destruct (fst (Backend.get_salt tok (server w))) as [salt|x]; [|now left].
  destruct (crypto_getKEK password salt) as [kek|x]; [|now left].
  destruct (crypto_unwrapDEK (wrapped_dek file) kek) as [dek|x] eqn:Eu; [|now left].
  destruct (crypto_decryptChunk (original_filename_encrypted file) dek)
    as [name|x] eqn:En; [|now left].
  destruct (fst (Backend.download_content tok (id file) (server w))) as [data|x];
    [|now left].
  destruct (crypto_decryptChunk data dek) as [content|x] eqn:Ec; [|now left].
  right. exists kek, dek, name, data, content. repeat split; trivial.
Qed.

End Download.

(** *** Upload and download *)

Section EndToEnd.
Context {P : Platform} {S : PlatformSpec P}.

Lemma handleDownload_fails file answer w tok password :
  truthy (token w) = Some tok -> truthy answer = Some password ->
  FileList.handleDownload (L := lib_crypto P) file answer w
  = show FileList.download_failed w.
Proof.
  intros Ht Ha. rewrite handleDownload_eq, Ht, Ha.
  destruct (fst (Backend.get_salt tok (server w))) as [salt|x]; [|reflexivity].
  cbn [crypto_getKEK lib_crypto]. rewrite KDF.getKEK_eq. reflexivity.
Qed.

Lemma handleDownload_saves_nothing file answer w :
  saved (FileList.handleDownload (L := lib_crypto P) file answer w) = saved w.
Proof.
  destruct (truthy (token w)) as [tok|] eqn:Ht;
    [|now rewrite handleDownload_eq, Ht].
  destruct (truthy answer) as [password|] eqn:Ha.
  - now rewrite (handleDownload_fails file answer w tok password Ht Ha).
  - now rewrite (handleDownload_no_password file answer w tok Ht Ha).
Qed.

(** C3, on the code.  With the library as it is no file comes back,
    because none gets in and none gets out.  [handleDrop] leaves the
    backend as it found it, whatever is dropped: it is rejected at
    step 3, where [wrapDEK] names AES-GCM without an [iv], and an
    upload that was given a password ends in "Upload Failed".
    [handleDownload] saves nothing, whatever the metadata and whatever
    the backend holds: it is rejected at its own step 3, [unwrapDEK],
    and a download that was given a password ends in "Download
    Failed". *)
Theorem upload_download_mismatch :
  (forall files answer w,
      server (FileUpload.handleDrop (L := lib_crypto P) files answer w) = server w)
  /\ (forall files answer w tok password,
         truthy (token w) = Some tok -> truthy answer = Some password ->
         shown (FileUpload.handleDrop (L := lib_crypto P) files answer w)
         = shown w ++ [FileUpload.upload_failed TypeError])
  /\ (forall file answer w,
         saved (FileList.handleDownload (L := lib_crypto P) file answer w) = saved w)
  /\ (forall file answer w tok password,
         truthy (token w) = Some tok -> truthy answer = Some password ->
         FileList.handleDownload (L := lib_crypto P) file answer w
         = show FileList.download_failed w).
Proof.
  split; [apply handleDrop_server|]. split; [apply handleDrop_fails|].
  split; [apply handleDownload_saves_nothing|apply handleDownload_fails].
Qed.

End EndToEnd.

End Orchestrator.

(** ** The theorems at the sample inputs, on the toy platform *)

Module Runs.
Import Encoding.

Example encode_ascii :
  TextEncoder_encode (js "report.pdf") = map byte_of_N (js "report.pdf").
Proof. reflexivity. Qed.

Example encode_pair :
  TextEncoder_encode [0xD83D%N; 0xDE00%N] = [xf0; x9f; x98; x80].
Proof. reflexivity. Qed.

Example encode_lone_surrogate : TextEncoder_encode [0xD800%N] = [xef; xbf; xbd].
Proof. reflexivity. Qed.

Example generateDEK_run :
  Crypto.generateDEK Toy.keys
  = (Fulfilled Toy.dek, mkKeyGenerator (outcomes Toy.keys) 1).
Proof. reflexivity. Qed.

Example generateDEK_fails :
  Crypto.generateDEK (mkKeyGenerator (fun _ => None) 0)
  = (Rejected OperationError, mkKeyGenerator (fun _ => None) 1).
Proof. reflexivity. Qed.

Example getKEK_run :
  Crypto.getKEK (P := Toy.platform) Sample.password (js "salt")
  = Fulfilled Sample.kek.
Proof. reflexivity. Qed.

Example wrapDEK_run :
  Crypto.wrapDEK (P := Toy.platform) Toy.dek Sample.kek = Rejected TypeError.
Proof. reflexivity. Qed.

(** On any attempt, [handleDrop] ends in "Upload Failed" with the backend
    untouched, one key generated and no random byte drawn. *)
Example handleDrop_run :
  FileUpload.handleDrop (L := lib_crypto Toy.platform) [Sample.note]
    (Some Sample.password) Sample.world
  = mkWorld (Some (js "token")) (Backend.mkServer true (js "salt") [])
            Toy.counting (mkKeyGenerator (outcomes Toy.keys) 1)
            [FileUpload.upload_failed TypeError] [] false 0.
Proof. reflexivity. Qed.

(** The empty string is no token: [!token] holds of it as it does of
    [null]. *)
Example handleDrop_empty_token :
  let w := mkWorld (Some []) (Backend.mkServer true (js "salt") [])
             Toy.counting Toy.keys [] [] false 0 in
  FileUpload.handleDrop (L := lib_crypto Toy.platform) [Sample.note]
    (Some Sample.password) w
  = show FileUpload.authentication_error w
  /\ FileList.handleDownload (P := Toy.platform) (L := lib_crypto Toy.platform)
       Sample.listed (Some Sample.password) w = w.
Proof. split; reflexivity. Qed.

(** Step 6 alone, on a file of three bytes: one blob of 31 bytes is
    stored, and it decrypts to the file. *)
Example upload_chunks_run_note :
  let w := mkWorld (Some (js "token"))
             (Backend.mkServer true (js "salt")
                [Backend.mkUpload (mkMeta 0 [] 3 "text/csv" []) [] false])
             Toy.counting_on Toy.keys [] [] false 0 in
  let w' := snd (FileUpload.upload_chunks (L := lib_crypto Toy.platform)
                   (FileUpload.turns_for Sample.note) Sample.note Toy.dek
                   (js "token") 0 0 w) in
  map (@List.length byte)
      (flat_map Backend.chunks (Backend.uploads (server w'))) = [31]
  /\ progress w' = 100%N
  /\ (data <- fst (Backend.download_content (js "token") 0 (server w')) ;;
      Crypto.decryptChunk (P := Toy.platform) data Toy.dek)%promise
     = Fulfilled (file_bytes Sample.note).
Proof. vm_compute. repeat split. Qed.

Lemma report_size : file_size Sample.report = (10 * 1024 * 1024)%N.
Proof.
  unfold file_size, Sample.report. cbn [file_bytes].
  rewrite repeat_length. apply N2Nat.id.
Qed.

Lemma decryptChunk_encryptChunk_run :
  Crypto.is_DEK Toy.dek = true
  /\ exists blob,
       fst (Crypto.encryptChunk (P := Toy.platform) [x01; x02; x03] Toy.dek
              Toy.counting_on) = Fulfilled blob
       /\ Crypto.decryptChunk (P := Toy.platform) blob Toy.dek
          = Fulfilled [x01; x02; x03].
Proof.
  split; [reflexivity|].
  apply (ChunkCipher.decryptChunk_encryptChunk (S := ToyFacts.spec)). reflexivity.
Defined.

Lemma chunk_overhead_run :
  Crypto.is_DEK Toy.dek = true
  /\ (exists blob,
        fst (Crypto.encryptChunk (P := Toy.platform) [x01; x02; x03] Toy.dek
               Toy.counting_on) = Fulfilled blob
        /\ List.length blob = 3 + 28
        /\ Crypto.decryptChunk (P := Toy.platform) blob Toy.dek
           = Fulfilled [x01; x02; x03])
  /\ (forall blob q,
        Crypto.decryptChunk (P := Toy.platform) blob Toy.dek = Fulfilled q ->
        List.length blob = List.length q + 28)
  /\ (forall blob,
        List.length blob < 28 ->
        Crypto.decryptChunk (P := Toy.platform) blob Toy.dek
        = Rejected OperationError).
Proof.
  split; [reflexivity|].
  apply (ChunkCipher.chunk_overhead (S := ToyFacts.spec)). reflexivity.
Defined.

Lemma fresh_nonce_distinct_blobs_run :
  Crypto.is_DEK Toy.dek = true
  /\ exists b1 b2,
       Crypto.encryptChunk (P := Toy.platform) [x01; x02; x03] Toy.dek Toy.counting_on
       = (Fulfilled b1, Toy.counting_further)
       /\ Crypto.encryptChunk (P := Toy.platform) [x01; x02; x03] Toy.dek
            Toy.counting_further
          = (Fulfilled b2, mkEntropy (tape Toy.counting) 56)
       /\ b1 = map (tape Toy.counting) (seq 32 12)
               ++ AES_GCM_encrypt (Platform := Toy.platform)
                    (WebCrypto.material Toy.dek)
                    (map (tape Toy.counting) (seq 32 12)) [x01; x02; x03]
       /\ b2 = map (tape Toy.counting) (seq 44 12)
               ++ AES_GCM_encrypt (Platform := Toy.platform)
                    (WebCrypto.material Toy.dek)
                    (map (tape Toy.counting) (seq 44 12)) [x01; x02; x03]
       /\ b1 <> b2.
Proof.
  split; [reflexivity|].
  destruct (ChunkCipher.fresh_nonce_distinct_blobs (P := Toy.platform)
              [x01; x02; x03] Toy.dek Toy.counting_on Toy.counting_further eq_refl)
    as (b1 & b2 & H1 & H2 & H3 & H4 & H5).
  exists b1, b2. split; [exact H1|]. split; [exact H2|].
  split; [exact H3|]. split; [exact H4|].
  apply H5. vm_compute. discriminate.
Defined.

Lemma blob_layout_run :
  Crypto.is_DEK Toy.dek = true
  /\ exists nonce body,
       Crypto.encryptChunk (P := Toy.platform) [x01; x02; x03] Toy.dek Toy.counting_on
       = (Fulfilled (nonce ++ body),
          mkEntropy (tape Toy.counting_on) (pos Toy.counting_on + 12))
       /\ List.length nonce = 12 /\ List.length body = 3 + 16.
Proof.
  split; [reflexivity|].
  destruct (WireFormat.blob_layout (S := ToyFacts.spec) [x01; x02; x03] Toy.dek
              Sample.kek Toy.counting_on eq_refl)
    as [(nonce & body & He & _ & Hn & _ & Hb) _].
  exists nonce, body. repeat split; assumption.
Defined.


Lemma kek_of_encoded_inputs_run :
  exists k1 k2,
    Crypto.getKEK (P := Toy.platform) [0xD800%N] (js "salt") = Fulfilled k1
    /\ Crypto.getKEK (P := Toy.platform) [0xD801%N] (js "salt") = Fulfilled k2
    /\ k1 = k2
    /\ exists k3,
         Crypto.getKEK (P := Toy.platform) [0xD800%N] (js "pepper") = Fulfilled k3
         /\ (k1 <> k3 <->
             PBKDF2_HMAC (Platform := Toy.platform) SHA_256
               (TextEncoder_encode [0xD800%N]) (TextEncoder_encode (js "salt"))
               100000 32
             <> PBKDF2_HMAC (Platform := Toy.platform) SHA_256
                  (TextEncoder_encode [0xD800%N]) (TextEncoder_encode (js "pepper"))
                  100000 32).
Proof.
  destruct (KDF.kek_of_encoded_inputs (P := Toy.platform) (S := ToyFacts.spec)
              [0xD800%N] (js "salt") [0xD801%N] (js "salt"))
    as (k1 & k2 & H1 & H2 & Hsame & _).
  exists k1, k2. split; [exact H1|]. split; [exact H2|].
  split; [apply Hsame; reflexivity|].
  destruct (KDF.kek_of_encoded_inputs (P := Toy.platform) (S := ToyFacts.spec)
              [0xD800%N] (js "salt") [0xD800%N] (js "pepper"))
    as (k1' & k3 & H1' & H3 & _ & Hiff).
  exists k3. split; [exact H3|].
  rewrite H1 in H1'. injection H1' as <-. exact Hiff.
Defined.

Lemma no_kdf_input_validation_run :
  (exists kek,
      Crypto.getKEK (P := Toy.platform) [] [] = Fulfilled kek
      /\ Crypto.is_KEK kek = true)
  /\ FileList.handleDownload (P := Toy.platform) (L := lib_crypto Toy.platform)
       Sample.listed (Some []) Sample.world
     = show FileList.password_required Sample.world
  /\ FileUpload.handleDrop (L := lib_crypto Toy.platform) [Sample.note] None
       Sample.world
     = mkWorld (Some (js "token")) (Backend.mkServer true (js "salt") [])
               Toy.counting (mkKeyGenerator (outcomes Toy.keys) 1)
               [FileUpload.password_required] [] false 0.
Proof.
  destruct (Orchestrator.no_kdf_input_validation (P := Toy.platform)
              (L := lib_crypto Toy.platform) (S := ToyFacts.spec))
    as (Hkdf & Hdown & Hdrop).
  split; [apply Hkdf|].
  split; [apply (Hdown _ _ _ (js "token")); reflexivity|].
  exact (Hdrop [Sample.note] None Sample.world (js "token") Toy.dek
           (mkKeyGenerator (outcomes Toy.keys) 1) eq_refl eq_refl eq_refl).
Defined.

Lemma download_aborted_run :
  FileList.handleDownload (P := Toy.platform) (L := lib_crypto Toy.platform)
    Sample.listed (Some Sample.password) Sample.world
  = show FileList.download_failed Sample.world
  /\ saved (FileList.handleDownload (P := Toy.platform) (L := lib_crypto Toy.platform)
              Sample.listed (Some Sample.password) Sample.world)
     = saved Sample.world.
Proof.
  eapply (Orchestrator.download_aborted (P := Toy.platform)
            (L := lib_crypto Toy.platform)).
  - reflexivity.
  - reflexivity.
  - reflexivity.
  - vm_compute. reflexivity.
  - left. exists TypeError. reflexivity.
Defined.

Lemma upload_download_mismatch_run :
  server (FileUpload.handleDrop (L := lib_crypto Toy.platform) [Sample.report]
            (Some Sample.password) Sample.world)
  = Backend.mkServer true (js "salt") []
  /\ shown (FileUpload.handleDrop (L := lib_crypto Toy.platform) [Sample.report]
              (Some Sample.password) Sample.world)
     = [FileUpload.upload_failed TypeError]
  /\ saved (FileList.handleDownload (P := Toy.platform) (L := lib_crypto Toy.platform)
              Sample.listed (Some Sample.password) Sample.world_registered) = []
  /\ FileList.handleDownload (P := Toy.platform) (L := lib_crypto Toy.platform)
       Sample.listed (Some Sample.password) Sample.world_registered
     = show FileList.download_failed Sample.world_registered.
Proof.
  destruct (@Orchestrator.upload_download_mismatch Toy.platform ToyFacts.spec)
    as (Hserver & Hshown & Hsaved & Hdown).
  split; [exact (Hserver [Sample.report] (Some Sample.password) Sample.world)|].
  split; [exact (Hshown [Sample.report] (Some Sample.password) Sample.world
                   (js "token") Sample.password eq_refl eq_refl)|].
  split; [exact (Hsaved Sample.listed (Some Sample.password)
                   Sample.world_registered)|].
  exact (Hdown Sample.listed (Some Sample.password) Sample.world_registered
           (js "token") Sample.password eq_refl eq_refl).
Defined.

End Runs.

(** * More on the code *)

(** ** The loop of step 6 *)

Module Loop.

Lemma nth_error_update_nth_other {A : Type} (f : A -> A) (l : list A) i j :
  j <> i -> nth_error (Backend.update_nth i f l) j = nth_error l j.
Proof.
  revert i j. induction l as [|x l IH]; intros [|i] [|j] H; simpl; trivial.
  - congruence.
  - apply IH. congruence.
Qed.

Lemma length_update_nth {A : Type} (f : A -> A) (l : list A) i :
  List.length (Backend.update_nth i f l) = List.length l.
Proof.
  revert i. induction l as [|x l IH]; intros [|i]; simpl; trivial.
  now rewrite IH.
Qed.

Lemma nth_error_update_nth_same {A : Type} (f : A -> A) (l : list A) i :
  nth_error (Backend.update_nth i f l) i = option_map f (nth_error l i).
Proof.
  revert i. induction l as [|x l IH]; intros [|i]; simpl; trivial.
Qed.

Section AnyLibrary.
Context {L : CryptoLib}.

(** What a chunk request can do to the backend. *)
Lemma upload_chunk_frame tok fileId blob s r s' :
  Backend.upload_chunk tok fileId blob s = (r, s') ->
  Backend.reachable s' = Backend.reachable s
  /\ Backend.user_salt s' = Backend.user_salt s
  /\ List.length (Backend.uploads s') = List.length (Backend.uploads s)
  /\ (forall j, j <> N.to_nat fileId ->
        nth_error (Backend.uploads s') j = nth_error (Backend.uploads s) j)
  /\ (forall u, nth_error (Backend.uploads s) (N.to_nat fileId) = Some u ->
        exists blobs,
          nth_error (Backend.uploads s') (N.to_nat fileId)
          = Some (Backend.mkUpload (Backend.meta u) (Backend.chunks u ++ blobs)
                    (Backend.completed u))).
Proof.
  unfold Backend.upload_chunk, Backend.served, Backend.with_upload.
  assert (Hsame : forall u, nth_error (Backend.uploads s) (N.to_nat fileId) = Some u ->
            exists blobs,
              nth_error (Backend.uploads s) (N.to_nat fileId)
              = Some (Backend.mkUpload (Backend.meta u) (Backend.chunks u ++ blobs)
                        (Backend.completed u))).
  { intros u Hu. exists []. rewrite app_nil_r. now destruct u. }
  destruct (Backend.reachable s) eqn:Hr; [|intros [= <- <-]; repeat split; trivial].
  destruct (nth_error (Backend.uploads s) (N.to_nat fileId)) as [u0|] eqn:Hu;
    [|intros [= <- <-]; rewrite Hu; repeat split; trivial; discriminate].
  intros [= <- <-]. cbn [Backend.reachable Backend.user_salt Backend.uploads].
  split; [reflexivity|]. split; [reflexivity|].
  split; [apply length_update_nth|]. split.
  - intros j Hj. now apply nth_error_update_nth_other.
  - intros u [= <-]. exists [blob].
    now rewrite nth_error_update_nth_same, Hu.
Qed.

(** X1.  Whatever the library does and however the loop ends, fulfilled
    or rejected midway, it shows and saves nothing, leaves the token
    and the uploading flag alone, and on the backend changes one thing
    only: chunks are added at the end of the upload [fileId], whose
    metadata and completion mark stay.  No other upload is touched and
    none is added or removed. *)
Theorem upload_chunks_only_appends file dek tok fileId turns :
  forall offset w r w',
    FileUpload.upload_chunks turns file dek tok fileId offset w = (r, w') ->
    token w' = token w /\ shown w' = shown w /\ saved w' = saved w
    /\ uploading w' = uploading w
    /\ Backend.reachable (server w') = Backend.reachable (server w)
    /\ Backend.user_salt (server w') = Backend.user_salt (server w)
    /\ List.length (Backend.uploads (server w'))
       = List.length (Backend.uploads (server w))
    /\ (forall j, j <> N.to_nat fileId ->
          nth_error (Backend.uploads (server w')) j
          = nth_error (Backend.uploads (server w)) j)
    /\ (forall u, nth_error (Backend.uploads (server w)) (N.to_nat fileId) = Some u ->
          exists blobs,
            nth_error (Backend.uploads (server w')) (N.to_nat fileId)
            = Some (Backend.mkUpload (Backend.meta u) (Backend.chunks u ++ blobs)
                      (Backend.completed u))).
Proof.
  assert (Hrefl : forall w : World,
            token w = token w /\ shown w = shown w /\ saved w = saved w
            /\ uploading w = uploading w
            /\ Backend.reachable (server w) = Backend.reachable (server w)
            /\ Backend.user_salt (server w) = Backend.user_salt (server w)
            /\ List.length (Backend.uploads (server w))
               = List.length (Backend.uploads (server w))
            /\ (forall j, j <> N.to_nat fileId ->
                  nth_error (Backend.uploads (server w)) j
                  = nth_error (Backend.uploads (server w)) j)
            /\ (forall u, nth_error (Backend.uploads (server w)) (N.to_nat fileId) = Some u ->
                  exists blobs,
                    nth_error (Backend.uploads (server w)) (N.to_nat fileId)
                    = Some (Backend.mkUpload (Backend.meta u) (Backend.chunks u ++ blobs)
                              (Backend.completed u)))).
  { intros w. repeat split; trivial. intros u Hu. exists []. rewrite app_nil_r.
    now destruct u. }
  induction turns as [|turns IH]; intros offset w r w'.
  - cbn. intros [= <- <-]. apply Hrefl.
  - cbn [FileUpload.upload_chunks].
    destruct (offset <? file_size file)%N; [|intros [= <- <-]; apply Hrefl].
    unfold bind at 1. unfold of_rand at 1.
    destruct (crypto_encryptChunk _ dek (entropy w)) as [[blob|x] e1];
      [|intros [= <- <-]; cbn [token shown saved uploading server]; apply Hrefl].
    unfold bind at 1. unfold axios at 1. cbn [server].
    destruct (Backend.upload_chunk tok fileId blob (server w)) as [[[]|x] s1] eqn:E.
    + apply upload_chunk_frame in E. destruct E as (E1 & E2 & E3 & E4 & E5).
      unfold bind at 1, act at 1. intros Hrun. apply IH in Hrun.
      cbn [token shown saved uploading server setProgress] in Hrun.
      destruct Hrun as (H1 & H2 & H3 & H4 & H5 & H6 & H7 & H8 & H9).
      repeat split; try congruence.
      * intros j Hj. rewrite H8 by assumption. now apply E4.
      * intros u Hu. destruct (E5 u Hu) as (b1 & Hb1).
        destruct (H9 _ Hb1) as (b2 & Hb2). exists (b1 ++ b2).
        rewrite Hb2. cbn [Backend.meta Backend.chunks Backend.completed].
        now rewrite app_assoc.
    + apply upload_chunk_frame in E. destruct E as (E1 & E2 & E3 & E4 & E5).
      intros [= <- <-]. cbn [token shown saved uploading server].
      repeat split; trivial.
Qed.

End AnyLibrary.

Section TheLibrary.
Context {P : Platform}.

Lemma seal_encryptChunk dek slice e :
  Crypto.is_DEK dek = true ->
  Crypto.encryptChunk slice dek e
  = (Fulfilled (seal dek (tape e) (pos e) slice), mkEntropy (tape e) (pos e + 12)).
Proof. intros Hk. now rewrite (ChunkCipher.encryptChunk_eq slice dek e Hk). Qed.

(** The run of the loop, to the byte. *)
Lemma upload_chunks_exact file dek tok fileId turns :
  Crypto.is_DEK dek = true ->
  forall offset w u,
    Backend.reachable (server w) = true ->
    nth_error (Backend.uploads (server w)) (N.to_nat fileId) = Some u ->
    exists w',
      FileUpload.upload_chunks (L := lib_crypto P) turns file dek tok fileId offset w
      = (Fulfilled tt, w')
      /\ nth_error (Backend.uploads (server w')) (N.to_nat fileId)
         = Some (Backend.mkUpload (Backend.meta u)
                   (Backend.chunks u
                    ++ seal_all dek (tape (entropy w)) (pos (entropy w))
                         (FileUpload.slices turns offset (file_bytes file)))
                   (Backend.completed u))
      /\ tape (entropy w') = tape (entropy w)
      /\ pos (entropy w')
         = pos (entropy w)
           + 12 * List.length (FileUpload.slices turns offset (file_bytes file))
      /\ Backend.reachable (server w') = true.
Proof.
  intros Hk. induction turns as [|turns IH]; intros offset w u Hr Hu.
  - exists w. cbn. rewrite app_nil_r, Nat.add_0_r. destruct u. repeat split; trivial.
  - cbn [FileUpload.upload_chunks FileUpload.slices]. fold (file_size file).
    destruct (offset <? file_size file)%N.
    + unfold bind at 1. unfold of_rand at 1.
      cbn [crypto_encryptChunk lib_crypto].
      rewrite (seal_encryptChunk dek _ (entropy w) Hk).
      set (blob := seal dek _ _ _).
      cbv iota beta.
      unfold bind at 1. unfold axios at 1.
      unfold Backend.upload_chunk, Backend.served, Backend.with_upload.
      cbn [server]. rewrite Hr, Hu.
      unfold bind at 1. unfold act at 1.
      match goal with
      | |- context [FileUpload.upload_chunks turns file dek tok fileId ?o ?w1] =>
          destruct (IH o w1 (Backend.mkUpload (Backend.meta u)
                               (Backend.chunks u ++ [blob]) (Backend.completed u)))
            as (w' & Hrun & Hu' & Ht & Hp & Hr')
      end.
      * reflexivity.
      * cbn [server Backend.uploads].
        exact (Orchestrator.nth_error_update_nth _ _ _ _ Hu).
      * exists w'. rewrite Hrun.
        cbn [Backend.meta Backend.chunks Backend.completed entropy setProgress tape pos]
          in Hu', Ht, Hp.
        rewrite <- app_assoc in Hu'. cbn [seal_all List.length].
        repeat split; trivial. rewrite Hp. lia.
    + exists w. cbn. rewrite app_nil_r, Nat.add_0_r. destruct u. repeat split; trivial.
Qed.

(** *** Slices *)

Lemma CS : FileUpload.CHUNK_SIZE = 4194304%N.
Proof. reflexivity. Qed.

Lemma Blob_slice_length offset b :
  (offset < N.of_nat (List.length b))%N ->
  N.of_nat (List.length (Blob_slice offset (offset + FileUpload.CHUNK_SIZE) b))
  = N.min FileUpload.CHUNK_SIZE (N.of_nat (List.length b) - offset).
Proof.
  intros Hlt. rewrite (Orchestrator.Blob_slice_eq offset b Hlt).
  rewrite length_firstn, length_skipn. rewrite CS. lia.
Qed.

Lemma nth_slice turns : forall offset b i sl,
  nth_error (FileUpload.slices turns offset b) i = Some sl ->
  (offset + N.of_nat i * FileUpload.CHUNK_SIZE < N.of_nat (List.length b))%N
  /\ sl = Blob_slice (offset + N.of_nat i * FileUpload.CHUNK_SIZE)
            (offset + N.of_nat i * FileUpload.CHUNK_SIZE + FileUpload.CHUNK_SIZE) b.
Proof.
  induction turns as [|turns IH]; intros offset b i sl; [now destruct i|].
  cbn [FileUpload.slices].
  destruct (offset <? N.of_nat (List.length b))%N eqn:E; [|now destruct i].
  apply N.ltb_lt in E. destruct i as [|i].
  - cbn [nth_error]. intros [= <-]. cbn [N.of_nat]. rewrite N.mul_0_l, N.add_0_r.
    now split.
  - cbn [nth_error]. intros H. apply IH in H. destruct H as [H1 H2].
    replace (offset + N.of_nat (S i) * FileUpload.CHUNK_SIZE)%N
      with (offset + FileUpload.CHUNK_SIZE + N.of_nat i * FileUpload.CHUNK_SIZE)%N
      by lia.
    now split.
Qed.

Lemma slices_count turns : forall offset b,
  ((N.of_nat (List.length b) - offset) / FileUpload.CHUNK_SIZE < N.of_nat turns)%N ->
  let n := N.of_nat (List.length (FileUpload.slices turns offset b)) in
  (N.of_nat (List.length b) - offset <= n * FileUpload.CHUNK_SIZE
   < N.of_nat (List.length b) - offset + FileUpload.CHUNK_SIZE)%N.
Proof.
  induction turns as [|turns IH]; intros offset b Hturns;
    [now apply N.nlt_0_r in Hturns|].
  cbn [FileUpload.slices].
  destruct (offset <? N.of_nat (List.length b))%N eqn:E.
  - apply N.ltb_lt in E.
    destruct (N.le_gt_cases (N.of_nat (List.length b)) (offset + FileUpload.CHUNK_SIZE))
      as [Hle|Hgt].
    + rewrite (Orchestrator.slices_past_end turns _ b Hle). cbv zeta.
      cbn [List.length]. rewrite CS in *. lia.
    + assert (Hn : ((N.of_nat (List.length b) - (offset + FileUpload.CHUNK_SIZE))
                    / FileUpload.CHUNK_SIZE < N.of_nat turns)%N).
      { replace (N.of_nat (List.length b) - offset)%N
          with ((N.of_nat (List.length b) - (offset + FileUpload.CHUNK_SIZE))
                + 1 * FileUpload.CHUNK_SIZE)%N in Hturns by lia.
        rewrite N.div_add in Hturns by (rewrite CS; lia).
        set (q := (_ / _)%N) in *. lia. }
      specialize (IH _ b Hn). cbv zeta in IH. cbn [List.length].
      rewrite CS in *. lia.
  - apply N.ltb_ge in E. cbv zeta. cbn [List.length]. rewrite CS. lia.
Qed.

Lemma slices_count_file (f : File) :
  let n := N.of_nat (List.length (FileUpload.slices (FileUpload.turns_for f) 0
                                    (file_bytes f))) in
  (file_size f <= n * FileUpload.CHUNK_SIZE < file_size f + FileUpload.CHUNK_SIZE)%N.
Proof.
  pose proof (slices_count (FileUpload.turns_for f) 0 (file_bytes f)) as H.
  rewrite N.sub_0_r in H. apply H.
  unfold FileUpload.turns_for, file_size. set (q := (_ / _)%N). lia.
Qed.

(** *** Sealed blobs *)

Lemma length_seal_all dek t p slices :
  List.length (seal_all dek t p slices) = List.length slices.
Proof.
  revert p. induction slices as [|sl slices IH]; intros p; cbn; [reflexivity|].
  now rewrite IH.
Qed.

Lemma nth_seal_all dek t slices : forall p i b,
  nth_error (seal_all dek t p slices) i = Some b ->
  exists sl, nth_error slices i = Some sl /\ b = seal dek t (p + 12 * i) sl.
Proof.
  induction slices as [|s0 slices IH]; intros p i b; [now destruct i|].
  destruct i as [|i]; cbn [seal_all nth_error].
  - intros [= <-]. exists s0. split; [reflexivity|]. f_equal. lia.
  - intros H. apply IH in H. destruct H as (sl & H1 & H2). exists sl.
    split; [assumption|]. rewrite H2. f_equal. lia.
Qed.

Lemma seal_nonce dek t p sl : firstn 12 (seal dek t p sl) = map t (seq p 12).
Proof.
  unfold seal. cbv zeta. apply firstn_all_app. now rewrite length_map, length_seq.
Qed.

Lemma seal_encrypts dek t p sl :
  fst (Crypto.encryptChunk sl dek (mkEntropy t p)) = Fulfilled (seal dek t p sl)
  \/ Crypto.is_DEK dek = false.
Proof.
  destruct (Crypto.is_DEK dek) eqn:Hk; [left|now right].
  now rewrite (seal_encryptChunk dek sl (mkEntropy t p) Hk).
Qed.

End TheLibrary.

Section TheLibrarySpec.
Context {P : Platform} {S : PlatformSpec P}.

Lemma seal_length dek t p sl :
  Crypto.is_DEK dek = true ->
  List.length (seal dek t p sl) = List.length sl + 28.
Proof.
  intros Hk.
  apply (ChunkCipher.encryptChunk_length sl dek (mkEntropy t p) _ Hk).
  now rewrite (seal_encryptChunk dek sl (mkEntropy t p) Hk).
Qed.

Lemma seal_decrypts dek t p sl :
  Crypto.is_DEK dek = true ->
  Crypto.decryptChunk (seal dek t p sl) dek = Fulfilled sl.
Proof.
  intros Hk.
  apply (ChunkCipher.decryptChunk_accepts sl dek (mkEntropy t p) _ Hk).
  now rewrite (seal_encryptChunk dek sl (mkEntropy t p) Hk).
Qed.

Lemma seal_all_decrypts dek t slices : forall p,
  Crypto.is_DEK dek = true ->
  Forall2 (fun blob slice => Crypto.decryptChunk blob dek = Fulfilled slice)
          (seal_all dek t p slices) slices.
Proof.
  induction slices as [|sl slices IH]; intros p Hk; cbn [seal_all]; constructor.
  - now apply seal_decrypts.
  - now apply IH.
Qed.

Lemma seal_all_length dek t slices : forall p,
  Crypto.is_DEK dek = true ->
  List.length (List.concat (seal_all dek t p slices))
  = List.length (List.concat slices) + 28 * List.length slices.
Proof.
  induction slices as [|sl slices IH]; intros p Hk; [reflexivity|].
  cbn [seal_all List.concat List.length]. rewrite !length_app, IH, seal_length by assumption.
  lia.
Qed.

(** X2.  The loop stores one blob per slice of [CHUNK_SIZE] bytes: their
    number [n] is the size divided by [CHUNK_SIZE], rounded up (none for
    an empty file), and blob [i] has the length of slice [i], which is
    [CHUNK_SIZE] but for a shorter last one, plus the 28 bytes of its
    nonce and tag. *)
Theorem stored_blob_sizes file dek tok fileId w u :
  Crypto.is_DEK dek = true ->
  Backend.reachable (server w) = true ->
  nth_error (Backend.uploads (server w)) (N.to_nat fileId) = Some u ->
  exists w' blobs,
    FileUpload.upload_chunks (L := lib_crypto P) (FileUpload.turns_for file)
      file dek tok fileId 0 w = (Fulfilled tt, w')
    /\ nth_error (Backend.uploads (server w')) (N.to_nat fileId)
       = Some (Backend.mkUpload (Backend.meta u) (Backend.chunks u ++ blobs)
                 (Backend.completed u))
    /\ (file_size file <= N.of_nat (List.length blobs) * FileUpload.CHUNK_SIZE
        < file_size file + FileUpload.CHUNK_SIZE)%N
    /\ (forall i blob,
          nth_error blobs i = Some blob ->
          N.of_nat (List.length blob)
          = (N.min FileUpload.CHUNK_SIZE
               (file_size file - N.of_nat i * FileUpload.CHUNK_SIZE) + 28)%N).
Proof.
  intros Hk Hr Hu.
  destruct (upload_chunks_exact file dek tok fileId (FileUpload.turns_for file) Hk
              0%N w u Hr Hu) as (w' & Hrun & Hu' & _ & _ & _).
  eexists w', _. split; [exact Hrun|]. split; [exact Hu'|]. split.
  - rewrite length_seal_all. apply slices_count_file.
  - intros i blob Hb. apply nth_seal_all in Hb. destruct Hb as (sl & Hsl & ->).
    rewrite seal_length by assumption.
    apply nth_slice in Hsl. destruct Hsl as [Hlt ->]. rewrite N.add_0_l in *.
    rewrite Nat2N.inj_add, Blob_slice_length by assumption. reflexivity.
Qed.

(** X3.  What the loop stores is enough to get the file back: every
    stored blob decrypts under the DEK, and the plaintexts, in upload
    order, concatenate to the bytes of the file. *)
Theorem blob_by_blob file dek tok fileId w u :
  Crypto.is_DEK dek = true ->
  Backend.reachable (server w) = true ->
  nth_error (Backend.uploads (server w)) (N.to_nat fileId) = Some u ->
  exists w' blobs plain,
    FileUpload.upload_chunks (L := lib_crypto P) (FileUpload.turns_for file)
      file dek tok fileId 0 w = (Fulfilled tt, w')
    /\ nth_error (Backend.uploads (server w')) (N.to_nat fileId)
       = Some (Backend.mkUpload (Backend.meta u) (Backend.chunks u ++ blobs)
                 (Backend.completed u))
    /\ Forall2 (fun blob slice => Crypto.decryptChunk blob dek = Fulfilled slice)
               blobs plain
    /\ List.concat plain = file_bytes file.
Proof.
  intros Hk Hr Hu.
  destruct (upload_chunks_exact file dek tok fileId (FileUpload.turns_for file) Hk
              0%N w u Hr Hu) as (w' & Hrun & Hu' & _ & _ & _).
  eexists w', _, _. split; [exact Hrun|]. split; [exact Hu'|]. split.
  - now apply seal_all_decrypts.
  - apply Orchestrator.concat_slices_file.
Qed.

End TheLibrarySpec.

Section Failure.
Context {P : Platform}.

(** X4.  The loop draws one nonce per slice and nothing else from the
    random source: blob [i] starts with the twelve bytes at position
    [12 * i] from where the source stood, so no two blobs of an upload
    share their nonce bytes' place on the tape, and the source ends
    [12] bytes further for every blob. *)
Theorem nonces_in_order file dek tok fileId w u :
  Crypto.is_DEK dek = true ->
  Backend.reachable (server w) = true ->
  nth_error (Backend.uploads (server w)) (N.to_nat fileId) = Some u ->
  exists w' blobs,
    FileUpload.upload_chunks (L := lib_crypto P) (FileUpload.turns_for file)
      file dek tok fileId 0 w = (Fulfilled tt, w')
    /\ nth_error (Backend.uploads (server w')) (N.to_nat fileId)
       = Some (Backend.mkUpload (Backend.meta u) (Backend.chunks u ++ blobs)
                 (Backend.completed u))
    /\ (forall i blob,
          nth_error blobs i = Some blob ->
          firstn 12 blob
          = map (tape (entropy w)) (seq (pos (entropy w) + 12 * i) 12))
    /\ tape (entropy w') = tape (entropy w)
    /\ pos (entropy w') = pos (entropy w) + 12 * List.length blobs.
Proof.
  intros Hk Hr Hu.
  destruct (upload_chunks_exact file dek tok fileId (FileUpload.turns_for file) Hk
              0%N w u Hr Hu) as (w' & Hrun & Hu' & Ht & Hp & _).
  eexists w', _. split; [exact Hrun|]. split; [exact Hu'|]. split; [|split].
  - intros i blob Hb. apply nth_seal_all in Hb. destruct Hb as (sl & _ & ->).
    apply seal_nonce.
  - exact Ht.
  - now rewrite length_seal_all.
Qed.

(** X5.  When the first chunk request fails (backend out of reach, or
    no upload under [fileId]) the loop is rejected with the request's
    error at once: the first slice has been encrypted and its nonce
    drawn, nothing is stored, and the progress is not touched. *)
Theorem first_request_fails file dek tok fileId w :
  Crypto.is_DEK dek = true ->
  (0 < file_size file)%N ->
  Backend.reachable (server w) = false
  \/ nth_error (Backend.uploads (server w)) (N.to_nat fileId) = None ->
  FileUpload.upload_chunks (L := lib_crypto P) (FileUpload.turns_for file)
    file dek tok fileId 0 w
  = (Rejected (AxiosError None),
     mkWorld (token w) (server w)
             (mkEntropy (tape (entropy w)) (pos (entropy w) + 12)) (keygen w)
             (shown w) (saved w) (uploading w) (progress w)).
Proof.
  intros Hk Hpos Hbad. unfold FileUpload.turns_for.
  cbn [FileUpload.upload_chunks].
  replace (0 <? file_size file)%N with true by (symmetry; now apply N.ltb_lt).
  unfold bind at 1. unfold of_rand at 1. cbn [crypto_encryptChunk lib_crypto].
  rewrite (seal_encryptChunk dek _ (entropy w) Hk). cbv iota beta.
  unfold bind at 1. unfold axios at 1.
  unfold Backend.upload_chunk, Backend.served, Backend.with_upload. cbn [server].
  destruct Hbad as [Hr|Hu].
  - now rewrite Hr.
  - rewrite Hu. now destruct (Backend.reachable (server w)).
Qed.

End Failure.

End Loop.

(** ** The handlers *)

Module Handlers.
Import Loop.

Ltac world :=
  cbn [token server entropy keygen shown saved uploading progress
       setUploading setProgress].

(** *** Quiet code *)

Lemma quiet_bind {A B : Type} (m : Async A) (k : A -> Async B) :
  quiet m -> (forall a, quiet (k a)) -> quiet (bind m k).
Proof.
  intros Hm Hk w r w'. unfold bind.
  destruct (m w) as [[a|e] w1] eqn:E.
  - intros H. apply Hk in H. apply Hm in E. intuition congruence.
  - intros [= <- <-]. now apply Hm in E.
Qed.

Lemma quiet_of_promise {A : Type} (p : Promise A) : quiet (of_promise p).
Proof. intros w r w' [= <- <-]. auto. Qed.

Lemma quiet_of_rand {A : Type} (g : Rand A) : quiet (of_rand g).
Proof.
  intros w r w'. unfold of_rand. destruct (g (entropy w)). intros [= <- <-]. auto.
Qed.

Lemma quiet_of_keygen {A : Type} (g : Keygen A) : quiet (of_keygen g).
Proof.
  intros w r w'. unfold of_keygen. destruct (g (keygen w)). intros [= <- <-]. auto.
Qed.

Lemma quiet_axios {A : Type} (q : Backend.Request A) : quiet (axios q).
Proof.
  intros w r w'. unfold axios. destruct (q (server w)). intros [= <- <-]. auto.
Qed.

Lemma quiet_ret {A : Type} (a : A) : quiet (ret a).
Proof. intros w r w' [= <- <-]. auto. Qed.

Lemma quiet_defined {A : Type} (x : option A) : quiet (FileUpload.defined x).
Proof. destruct x; intros w r w' [= <- <-]; auto. Qed.

Lemma quiet_setProgress n : quiet (act (setProgress n)).
Proof. intros w r w' [= <- <-]. auto. Qed.


Lemma quiet_upload_chunks {L : CryptoLib} file dek tok fileId turns :
  forall offset, quiet (FileUpload.upload_chunks turns file dek tok fileId offset).
Proof.
  induction turns as [|turns IH]; intros offset; cbn [FileUpload.upload_chunks].
  - apply quiet_ret.
  - destruct (offset <? file_size file)%N; [|apply quiet_ret].
    apply quiet_bind; [apply quiet_of_rand|intros blob].
    apply quiet_bind; [apply quiet_axios|intros _].
    apply quiet_bind; [apply quiet_setProgress|intros _]. apply IH.
Qed.

Lemma announcing_bind {A B : Type} (m : Async A) (k : A -> Async B) :
  quiet m -> (forall a, announcing (k a)) -> announcing (bind m k).
Proof.
  intros Hm Hk w r w'. unfold bind.
  destruct (m w) as [[a|e] w1] eqn:E.
  - intros H. apply Hk in H. apply Hm in E.
    destruct E as (E1 & E2 & E3), H as (H1 & H2 & H3).
    rewrite <- E1, <- E2, <- E3. auto.
  - intros [= <- <-]. apply Hm in E. intuition.
Qed.

Lemma announcing_show n : announcing (act (show n)).
Proof. intros w r w' [= <- <-]. cbn. eauto. Qed.

Section AnyLibrary.
Context {L : CryptoLib}.

(** X6.  On every path, with any library, [handleDrop] shows exactly
    one notification and saves nothing.  Without a token, [null] or
    the empty string, it is "Authentication Error" and nothing else
    changes; with one, the [finally] block leaves [uploading] false
    and [progress] 0 whatever happened. *)
Theorem handleDrop_one_notification files answer w :
  let w' := FileUpload.handleDrop files answer w in
  token w' = token w /\ saved w' = saved w
  /\ (exists n, shown w' = shown w ++ [n])
  /\ match truthy (token w) with
     | None =>
         shown w' = shown w ++ [FileUpload.authentication_error]
         /\ server w' = server w /\ entropy w' = entropy w
         /\ keygen w' = keygen w
         /\ uploading w' = uploading w /\ progress w' = progress w
     | Some _ => uploading w' = false /\ progress w' = 0%N
     end.
Proof.
  cbv zeta. unfold FileUpload.handleDrop.
  destruct (truthy (token w)) as [tok|] eqn:Ht; [|cbn; eauto 10].
  unfold finally.
  match goal with
  | |- context [try_catch ?body ?handler (setUploading true w)] =>
      assert (Hbody : announcing body); [|
        unfold try_catch;
        destruct (body (setUploading true w)) as [[[]|e] w1] eqn:E;
        apply Hbody in E; cbn [token saved shown setUploading] in E;
        destruct E as (E1 & E2 & E3) ]
  end.
  - apply announcing_bind; [apply quiet_of_keygen|intros dek].
    destruct (truthy answer) as [password|].
    + apply announcing_bind; [apply quiet_axios|intros salt].
      apply announcing_bind; [apply quiet_of_promise|intros kek].
      apply announcing_bind; [apply quiet_of_promise|intros wrappedDek].
      apply announcing_bind; [apply quiet_defined|intros file].
      apply announcing_bind; [apply quiet_of_rand|intros encryptedFilename].
      apply announcing_bind; [apply quiet_axios|intros fileId].
      apply announcing_bind; [apply quiet_upload_chunks|intros _].
      apply announcing_bind; [apply quiet_axios|intros _].
      apply announcing_show.
    + intros w0 r w' [= <- <-]. cbn. eauto.
  - cbn. rewrite E1, E2. destruct E3 as [n E3]. rewrite E3. eauto 10.
  - cbn. rewrite E1, E2, E3. eauto 10.
Qed.

End AnyLibrary.

(** *** Updating one upload *)

Lemma update_nth_ext {A : Type} (f g : A -> A) (l : list A) i :
  (forall x, f x = g x) -> Backend.update_nth i f l = Backend.update_nth i g l.
Proof.
  intros H. revert i. induction l as [|x l IH]; intros [|i]; simpl; trivial.
  - now rewrite H.
  - now rewrite IH.
Qed.

Lemma update_nth_twice {A : Type} (f g : A -> A) (l : list A) i :
  Backend.update_nth i g (Backend.update_nth i f l)
  = Backend.update_nth i (fun x => g (f x)) l.
Proof.
  revert i. induction l as [|x l IH]; intros [|i]; simpl; trivial.
  now rewrite IH.
Qed.

Lemma update_nth_last {A : Type} (f : A -> A) (l : list A) x :
  Backend.update_nth (List.length l) f (l ++ [x]) = l ++ [f x].
Proof. induction l as [|y l IH]; simpl; [reflexivity|]. now rewrite IH. Qed.

Lemma nth_error_last {A : Type} (l : list A) x :
  nth_error (l ++ [x]) (List.length l) = Some x.
Proof. induction l as [|y l IH]; simpl; trivial. Qed.

End Handlers.

(** ** Outcomes *)

Module Outcomes.
Import Loop Handlers.

Section Download.
Context {P : Platform} {L : CryptoLib}.

(** X8.  [handleDownload] writes nothing to the backend, draws nothing
    from the random source, generates no key and leaves the upload
    state alone.  Without a token, [null] or the empty string, it does
    nothing; with one it does exactly one of two things: it shows one
    notification ("Password required" or "Download Failed") and saves
    nothing, or it saves one file, of the type the metadata names, and
    shows nothing. *)
Theorem handleDownload_outcome file answer w :
  let w' := FileList.handleDownload file answer w in
  token w' = token w /\ server w' = server w /\ entropy w' = entropy w
  /\ keygen w' = keygen w
  /\ uploading w' = uploading w /\ progress w' = progress w
  /\ match truthy (token w) with
     | None => w' = w
     | Some _ =>
         (saved w' = saved w
          /\ (shown w' = shown w ++ [FileList.password_required]
              \/ shown w' = shown w ++ [FileList.download_failed]))
         \/ (shown w' = shown w
             /\ exists name content,
                  saved w' = saved w ++ [mkSaved name (mime_type file) content])
     end.
Proof.
  cbv zeta. rewrite Orchestrator.handleDownload_eq.
  destruct (truthy (token w)) as [tok|] eqn:Ht; [|repeat split; trivial].
  assert (Hfail : forall n,
            n = FileList.password_required \/ n = FileList.download_failed ->
            token (show n w) = token w /\ server (show n w) = server w
            /\ entropy (show n w) = entropy w
            /\ keygen (show n w) = keygen w
            /\ uploading (show n w) = uploading w /\ progress (show n w) = progress w
            /\ ((saved (show n w) = saved w
                 /\ (shown (show n w) = shown w ++ [FileList.password_required]
                     \/ shown (show n w) = shown w ++ [FileList.download_failed]))
                \/ (shown (show n w) = shown w
                    /\ exists name content,
                         saved (show n w)
                         = saved w ++ [mkSaved name (mime_type file) content]))).
  { intros n Hn. repeat split; trivial.
    left. split; [reflexivity|]. cbn [show shown].
    destruct Hn as [-> | ->]; [now left|now right]. }
  destruct (truthy answer) as [password|]; [|apply Hfail; now left].
  destruct (fst (Backend.get_salt tok (server w))) as [salt|x];
    [|apply Hfail; now right].
  destruct (crypto_getKEK password salt) as [kek|x]; [|apply Hfail; now right].
  destruct (crypto_unwrapDEK (wrapped_dek file) kek) as [dek|x];
    [|apply Hfail; now right].
  destruct (crypto_decryptChunk (original_filename_encrypted file) dek) as [name|x];
    [|apply Hfail; now right].
  destruct (fst (Backend.download_content tok (id file) (server w))) as [data|x];
    [|apply Hfail; now right].
  destruct (crypto_decryptChunk data dek) as [content|x]; [|apply Hfail; now right].
  repeat split; trivial.
  right. split; [reflexivity|].
  now exists (TextDecoder_decode name), content.
Qed.

End Download.

Lemma update_nth_id {A : Type} (f : A -> A) (l : list A) i :
  (forall x, f x = x) -> Backend.update_nth i f l = l.
Proof.
  intros H. revert i. induction l as [|x l IH]; intros [|i]; simpl; trivial.
  - now rewrite H.
  - now rewrite IH.
Qed.


Section Upload.
Context {L : CryptoLib}.

(** Whatever the loop's outcome, the backend differs by the chunks added
    to the one upload. *)
Lemma upload_chunks_server file dek tok fileId turns :
  forall offset w r w',
    FileUpload.upload_chunks turns file dek tok fileId offset w = (r, w') ->
    exists blobs,
      server w'
      = Backend.mkServer (Backend.reachable (server w)) (Backend.user_salt (server w))
          (Backend.update_nth (N.to_nat fileId) (appended blobs)
             (Backend.uploads (server w))).
Proof.
  assert (Hstay : forall w : World,
            server w
            = Backend.mkServer (Backend.reachable (server w))
                (Backend.user_salt (server w))
                (Backend.update_nth (N.to_nat fileId) (appended [])
                   (Backend.uploads (server w)))).
  { intros w. rewrite update_nth_id; [now destruct (server w)|].
    intros [m c d]. unfold appended. cbn. now rewrite app_nil_r. }
  induction turns as [|turns IH]; intros offset w r w'.
  - cbn. intros [= <- <-]. exists []. apply Hstay.
  - cbn [FileUpload.upload_chunks].
    destruct (offset <? file_size file)%N;
      [|intros [= <- <-]; exists []; apply Hstay].
    unfold bind at 1. unfold of_rand at 1.
    destruct (crypto_encryptChunk _ dek (entropy w)) as [[blob|x] e1];
      [|intros [= <- <-]; exists []; cbn [server]; apply Hstay].
    unfold bind at 1. unfold axios at 1. cbn [server].
    unfold Backend.upload_chunk, Backend.served, Backend.with_upload.
    destruct (Backend.reachable (server w)) eqn:Hr;
      [|intros [= <- <-]; exists []; cbn [server]; rewrite <- Hr; apply Hstay].
    destruct (nth_error (Backend.uploads (server w)) (N.to_nat fileId)) eqn:Hu;
      [|intros [= <- <-]; exists []; cbn [server]; rewrite <- Hr; apply Hstay].
    unfold bind at 1, act at 1. intros Hrun. apply IH in Hrun.
    destruct Hrun as (blobs & Hs). exists (blob :: blobs). rewrite Hs.
    cbn [server setProgress Backend.reachable Backend.user_salt Backend.uploads].
    f_equal. rewrite update_nth_twice. apply update_nth_ext.
    intros [m c d]. unfold appended. cbn. now rewrite <- app_assoc.
Qed.

Lemma not_complete (l : list Notification) n file :
  title n <> "Upload Complete"%string ->
  l ++ [n] <> l ++ [FileUpload.upload_complete file].
Proof.
  intros Hn H. apply app_inv_head in H. injection H as ->. now apply Hn.
Qed.

Lemma upload_failed_title e :
  title (FileUpload.upload_failed e) <> "Upload Complete"%string.
Proof. discriminate. Qed.

(** X9.  Whatever the library does, [handleDrop] leaves the uploads the
    backend has as they are.  Either it adds none, and then does not
    say "Upload Complete"; or it adds one, for the first dropped file,
    with that file's size and type, and this one is marked complete
    exactly when the handler says "Upload Complete": an upload that
    fails after step 5 leaves an entry behind that is never
    completed. *)
Theorem handleDrop_backend files answer w :
  let w' := FileUpload.handleDrop files answer w in
  Backend.reachable (server w') = Backend.reachable (server w)
  /\ Backend.user_salt (server w') = Backend.user_salt (server w)
  /\ ((Backend.uploads (server w') = Backend.uploads (server w)
       /\ forall file, shown w' <> shown w ++ [FileUpload.upload_complete file])
      \/ exists file u,
           hd_error files = Some file
           /\ Backend.uploads (server w') = Backend.uploads (server w) ++ [u]
           /\ id (Backend.meta u) = N.of_nat (List.length (Backend.uploads (server w)))
           /\ size_bytes (Backend.meta u) = file_size file
           /\ mime_type (Backend.meta u) = file_type file
           /\ (Backend.completed u = true
               <-> shown w' = shown w ++ [FileUpload.upload_complete file])).
Proof.
  cbv zeta. remember (FileUpload.handleDrop files answer w) as w' eqn:E.
  revert E. unfold FileUpload.handleDrop.
  destruct (truthy (token w)) as [tok|] eqn:Ht.
  2:{ intros ->. cbn. repeat split; trivial. left. split; [reflexivity|].
      intros file. apply not_complete. discriminate. }
  unfold finally, try_catch.
  unfold bind at 1, of_keygen at 1. world.
  destruct (crypto_generateDEK (keygen w)) as [[dek|x] g1].
  2:{ intros ->. cbn. repeat split; trivial. left. split; [reflexivity|].
      intros file. apply not_complete, upload_failed_title. }
  destruct (truthy answer) as [password|].
  2:{ intros ->. cbn. repeat split; trivial. left. split; [reflexivity|].
      intros file. apply not_complete. discriminate. }
  unfold bind at 1, axios at 1. world.
  unfold Backend.get_salt at 1, Backend.served at 1.
  destruct (Backend.reachable (server w)) eqn:Hr.
  2:{ intros ->. cbn. rewrite Hr. repeat split; trivial. left. split; [reflexivity|].
      intros file. apply not_complete, upload_failed_title. }
  unfold bind at 1, of_promise at 1. world.
  destruct (crypto_getKEK password (Backend.user_salt (server w))) as [kek|x].
  2:{ intros ->. cbn. rewrite Hr. repeat split; trivial. left. split; [reflexivity|].
      intros file. apply not_complete, upload_failed_title. }
  unfold bind at 1, of_promise at 1.
  destruct (crypto_wrapDEK dek kek) as [wrapped|x].
  2:{ intros ->. cbn. rewrite Hr. repeat split; trivial. left. split; [reflexivity|].
      intros file. apply not_complete, upload_failed_title. }
  unfold bind at 1.
  destruct (hd_error files) as [file|].
  2:{ intros ->. cbn. rewrite Hr. repeat split; trivial. left. split; [reflexivity|].
      intros file. apply not_complete, upload_failed_title. }
  cbn [FileUpload.defined ret].
  unfold bind at 1, of_rand at 1. world.
  destruct (crypto_encryptChunk _ dek (entropy w)) as [[name_blob|x] e2].
  2:{ intros ->. cbn. rewrite Hr. repeat split; trivial. left. split; [reflexivity|].
      intros file'. apply not_complete, upload_failed_title. }
  unfold bind at 1, axios at 1. world.
  unfold Backend.init_upload at 1, Backend.served at 1. rewrite Hr.
  cbv zeta.
  set (i := N.of_nat (List.length (Backend.uploads (server w)))).
  set (u0 := Backend.mkUpload
               (mkMeta i name_blob (file_size file) (file_type file) wrapped) [] false).
  world.
  unfold bind at 1.
  match goal with
  | |- context [FileUpload.upload_chunks ?t file dek tok i 0%N ?w1] =>
      destruct (FileUpload.upload_chunks t file dek tok i 0%N w1) as [r w2] eqn:Hrun;
      pose proof (upload_chunks_server _ _ _ _ _ _ _ _ _ Hrun) as (blobs & Hs);
      pose proof (quiet_upload_chunks _ _ _ _ _ _ _ _ _ Hrun) as (Q1 & Q2 & Q3)
  end.
  cbn [server token shown saved Backend.reachable Backend.user_salt Backend.uploads]
    in Hs, Q1, Q2, Q3.
  replace (N.to_nat i) with (List.length (Backend.uploads (server w))) in Hs
    by (unfold i; now rewrite Nat2N.id).
  rewrite update_nth_last in Hs. unfold appended, u0 in Hs.
  cbn [Backend.meta Backend.chunks Backend.completed app] in Hs.
  destruct r as [[]|x].
  - unfold bind at 1, axios at 1.
    unfold Backend.complete_upload, Backend.served, Backend.with_upload.
    rewrite Hs. cbn [Backend.reachable Backend.uploads Backend.user_salt].
    replace (N.to_nat i) with (List.length (Backend.uploads (server w)))
      by (unfold i; now rewrite Nat2N.id).
    rewrite nth_error_last, update_nth_last.
    intros ->. cbn. rewrite Q2. repeat split; trivial. right.
    eexists file, _. repeat split; reflexivity.
  - intros ->. cbn. rewrite Hs, Q2. cbn. repeat split; trivial. right.
    eexists file, _. split; [reflexivity|]. split; [reflexivity|].
    cbn. repeat split; trivial; [discriminate|].
    intros H. exfalso. revert H. apply not_complete, upload_failed_title.
Qed.

End Upload.

(** *** Progress *)

Lemma percent_full offset size :
  (0 < size)%N -> (size <= offset)%N -> FileUpload.percent offset size = 100%N.
Proof.
  intros Hpos Hle. unfold FileUpload.percent. apply N.min_r.
  apply N.div_le_lower_bound; lia.
Qed.

Section Progress.
Context {L : CryptoLib}.

Lemma upload_chunks_progress file dek tok fileId turns :
  forall offset w w',
    (offset < file_size file)%N ->
    (file_size file <= offset + N.of_nat turns * FileUpload.CHUNK_SIZE)%N ->
    FileUpload.upload_chunks turns file dek tok fileId offset w = (Fulfilled tt, w') ->
    progress w' = 100%N.
Proof.
  induction turns as [|turns IH]; intros offset w w' Hlt Hle; [lia|].
  cbn [FileUpload.upload_chunks].
  replace (offset <? file_size file)%N with true by (symmetry; now apply N.ltb_lt).
  unfold bind at 1.
  destruct (of_rand _ w) as [[blob|x] w1]; [|discriminate].
  unfold bind at 1.
  destruct (axios _ w1) as [[[]|x] w2]; [|discriminate].
  unfold bind at 1, act at 1.
  destruct (N.lt_ge_cases (offset + FileUpload.CHUNK_SIZE) (file_size file)) as [H|H].
  - apply IH; [assumption|]. lia.
  - assert (Hpos : (0 < file_size file)%N) by lia.
    destruct turns as [|turns'].
    + cbn [FileUpload.upload_chunks ret]. intros [= <-]. cbn [progress setProgress].
      now apply percent_full.
    + cbn [FileUpload.upload_chunks].
      replace (offset + FileUpload.CHUNK_SIZE <? file_size file)%N with false
        by (symmetry; now apply N.ltb_ge).
      cbn [ret]. intros [= <-]. cbn [progress setProgress].
      now apply percent_full.
Qed.

(** X10.  When the loop has sent a file, the progress stands at 100,
    whatever the size; for an empty file the loop does nothing at
    all. *)
Theorem progress_reaches_100 file dek tok fileId w w' :
  FileUpload.upload_chunks (FileUpload.turns_for file) file dek tok fileId 0 w
  = (Fulfilled tt, w') ->
  if (file_size file =? 0)%N then w' = w else progress w' = 100%N.
Proof.
  destruct (file_size file =? 0)%N eqn:E.
  - apply N.eqb_eq in E. unfold FileUpload.turns_for.
    cbn [FileUpload.upload_chunks]. rewrite E. cbn. now intros [= <-].
  - apply N.eqb_neq in E. apply upload_chunks_progress; [lia|].
    unfold FileUpload.turns_for. pose proof Orchestrator.CHUNK_SIZE_pos.
    set (q := (file_size file / FileUpload.CHUNK_SIZE)%N).
    pose proof (N.mod_lt (file_size file) FileUpload.CHUNK_SIZE) as Hm.
    pose proof (N.div_mod' (file_size file) FileUpload.CHUNK_SIZE) as Hd.
    fold q in Hd. rewrite Nat2N.inj_succ, N2Nat.id. nia.
Qed.

End Progress.

(** *** Keys *)

Section Keys.
Context {P : Platform}.

(** X12.  [generateDEK] asks the browser's key generator for one key
    and draws nothing from the random source.  When the generation
    fails it is rejected with [OperationError]; otherwise it gives an
    extractable key of the generator's 32 bytes, under which
    [encryptChunk] is fulfilled, the next 12 bytes of the random
    source in front of the blob, and [decryptChunk] gives the chunk
    back. *)
Theorem fresh_dek_round_trip {H : PlatformSpec P} chunk g e :
  let g' := mkKeyGenerator (outcomes g) (S (generated g)) in
  match outcomes g (generated g) with
  | None => Crypto.generateDEK g = (Rejected OperationError, g')
  | Some f =>
      exists dek blob,
        Crypto.generateDEK g = (Fulfilled dek, g')
        /\ WebCrypto.material dek = map f (seq 0 32)
        /\ WebCrypto.extractable dek = true
        /\ Crypto.encryptChunk chunk dek e
           = (Fulfilled blob, mkEntropy (tape e) (pos e + 12))
        /\ firstn 12 blob = map (tape e) (seq (pos e) 12)
        /\ Crypto.decryptChunk blob dek = Fulfilled chunk
  end.
Proof.
  cbv zeta. unfold Crypto.generateDEK, WebCrypto.generateKey, generate_key_bytes.
  cbn [WebCrypto.alg_AesKey WebCrypto.name WebCrypto.length
       WebCrypto.aes_usages_ok forallb andb negb].
  change (WebCrypto.aes_key_bits 256) with true. cbn [negb].
  change (N.to_nat (256 / 8)) with 32.
  destruct (outcomes g (generated g)) as [f|]; [|reflexivity].
  set (dek := WebCrypto.mkKey WebCrypto.AES_GCM true
                [WebCrypto.encrypt_usage; WebCrypto.decrypt_usage]
                (map f (seq 0 32))).
  assert (Hk : Crypto.is_DEK dek = true).
  { unfold Crypto.is_DEK, dek. cbn [WebCrypto.algorithm WebCrypto.usages
      WebCrypto.material]. now rewrite length_map, length_seq. }
  exists dek, (seal dek (tape e) (pos e) chunk).
  split; [reflexivity|]. split; [reflexivity|]. split; [reflexivity|].
  split; [apply (seal_encryptChunk dek chunk e Hk)|].
  split; [apply seal_nonce|]. now apply seal_decrypts.
Qed.

(** X13.  The key [getKEK] derives may wrap and unwrap only: handed to
    [encryptChunk] it is refused with [InvalidAccessError], after the
    nonce has been drawn, and [decryptChunk] refuses it the same way,
    whatever the blob. *)
Theorem kek_refused_for_chunks {S : PlatformSpec P} password salt chunk blob e :
  exists kek,
    Crypto.getKEK password salt = Fulfilled kek
    /\ Crypto.encryptChunk chunk kek e
       = (Rejected InvalidAccessError, mkEntropy (tape e) (pos e + 12))
    /\ Crypto.decryptChunk blob kek = Rejected InvalidAccessError.
Proof.
  rewrite KDF.getKEK_eq. eexists. split; [reflexivity|].
  split; reflexivity.
Qed.

End Keys.

End Outcomes.

(** ** The facts above, on the toy platform *)

Module Trials.
Import Loop Handlers Outcomes.

Lemma upload_chunks_only_appends_run :
  let run := FileUpload.upload_chunks (L := lib_crypto Toy.platform)
               (FileUpload.turns_for Sample.note) Sample.note Toy.dek (js "token") 0 0
               Sample.world_registered in
  run = (fst run, snd run)
  /\ shown (snd run) = [] /\ saved (snd run) = []
  /\ List.length (Backend.uploads (server (snd run))) = 1
  /\ exists blobs,
       nth_error (Backend.uploads (server (snd run))) 0
       = Some (Backend.mkUpload (Backend.meta Sample.registered) blobs false).
Proof.
  cbv zeta.
  assert (Hrun : FileUpload.upload_chunks (L := lib_crypto Toy.platform)
                   (FileUpload.turns_for Sample.note) Sample.note Toy.dek (js "token")
                   0 0 Sample.world_registered
                 = (fst (FileUpload.upload_chunks (L := lib_crypto Toy.platform)
                           (FileUpload.turns_for Sample.note) Sample.note Toy.dek
                           (js "token") 0 0 Sample.world_registered),
                    snd (FileUpload.upload_chunks (L := lib_crypto Toy.platform)
                           (FileUpload.turns_for Sample.note) Sample.note Toy.dek
                           (js "token") 0 0 Sample.world_registered)))
    by (vm_compute; reflexivity).
  split; [exact Hrun|].
  destruct (upload_chunks_only_appends Sample.note Toy.dek (js "token") 0
              (FileUpload.turns_for Sample.note) 0 Sample.world_registered _ _ Hrun)
    as (_ & H2 & H3 & _ & _ & _ & H7 & _ & H9).
  split; [exact H2|]. split; [exact H3|]. split; [exact H7|].
  exact (H9 Sample.registered eq_refl).
Defined.

Lemma stored_blob_sizes_run :
  Crypto.is_DEK Toy.dek = true
  /\ exists w' blobs,
       FileUpload.upload_chunks (L := lib_crypto Toy.platform)
         (FileUpload.turns_for Sample.report) Sample.report Toy.dek (js "token") 0 0
         Sample.world_registered = (Fulfilled tt, w')
       /\ nth_error (Backend.uploads (server w')) 0
          = Some (Backend.mkUpload (Backend.meta Sample.registered) blobs false)
       /\ map (fun blob => N.of_nat (List.length blob)) blobs
          = [4194332; 4194332; 2097180]%N.
Proof.
  split; [reflexivity|].
  destruct (stored_blob_sizes (S := ToyFacts.spec) Sample.report Toy.dek (js "token") 0
              Sample.world_registered Sample.registered eq_refl eq_refl eq_refl)
    as (w' & blobs & Hrun & Hu & Hn & Hlen).
  exists w', blobs. split; [exact Hrun|]. split; [exact Hu|].
  rewrite Runs.report_size, CS in Hn, Hlen.
  destruct blobs as [|b0 [|b1 [|b2 [|b3 rest]]]]; cbn [List.length] in Hn; try lia.
  cbn [map]. rewrite (Hlen 0 b0 eq_refl), (Hlen 1 b1 eq_refl), (Hlen 2 b2 eq_refl).
  reflexivity.
Defined.

Lemma blob_by_blob_run :
  Crypto.is_DEK Toy.dek = true
  /\ exists w' blobs plain,
       FileUpload.upload_chunks (L := lib_crypto Toy.platform)
         (FileUpload.turns_for Sample.report) Sample.report Toy.dek (js "token") 0 0
         Sample.world_registered = (Fulfilled tt, w')
       /\ nth_error (Backend.uploads (server w')) 0
          = Some (Backend.mkUpload (Backend.meta Sample.registered) blobs false)
       /\ Forall2 (fun blob slice =>
                     Crypto.decryptChunk (P := Toy.platform) blob Toy.dek
                     = Fulfilled slice) blobs plain
       /\ List.concat plain = file_bytes Sample.report.
Proof.
  split; [reflexivity|].
  apply (blob_by_blob (S := ToyFacts.spec) Sample.report Toy.dek (js "token") 0
           Sample.world_registered Sample.registered); reflexivity.
Defined.

Lemma nonces_in_order_run :
  Crypto.is_DEK Toy.dek = true
  /\ exists w' blobs,
       FileUpload.upload_chunks (L := lib_crypto Toy.platform)
         (FileUpload.turns_for Sample.note) Sample.note Toy.dek (js "token") 0 0
         Sample.world_registered = (Fulfilled tt, w')
       /\ (forall i blob,
             nth_error blobs i = Some blob ->
             firstn 12 blob = map (tape Toy.counting_on) (seq (32 + 12 * i) 12))
       /\ pos (entropy w') = 32 + 12 * List.length blobs.
Proof.
  split; [reflexivity|].
  destruct (nonces_in_order (P := Toy.platform) Sample.note Toy.dek (js "token") 0
              Sample.world_registered Sample.registered eq_refl eq_refl eq_refl)
    as (w' & blobs & Hrun & _ & Hn & _ & Hp).
  exists w', blobs. split; [exact Hrun|]. split; [exact Hn|exact Hp].
Defined.

Lemma first_request_fails_run :
  Crypto.is_DEK Toy.dek = true
  /\ (0 < file_size Sample.note)%N
  /\ nth_error (Backend.uploads (server Sample.world)) 0 = None
  /\ FileUpload.upload_chunks (L := lib_crypto Toy.platform)
       (FileUpload.turns_for Sample.note) Sample.note Toy.dek (js "token") 0 0
       Sample.world
     = (Rejected (AxiosError None),
        mkWorld (Some (js "token")) (Backend.mkServer true (js "salt") [])
                (mkEntropy (tape Toy.counting) 12) Toy.keys [] [] false 0).
Proof.
  split; [reflexivity|]. split; [reflexivity|]. split; [reflexivity|].
  apply (first_request_fails (P := Toy.platform) Sample.note Toy.dek (js "token") 0
           Sample.world); [reflexivity|reflexivity|right; reflexivity].
Defined.


Lemma progress_reaches_100_run :
  let run := FileUpload.upload_chunks (L := lib_crypto Toy.platform)
               (FileUpload.turns_for Sample.note) Sample.note Toy.dek (js "token") 0 0
               Sample.world_registered in
  run = (Fulfilled tt, snd run) /\ progress (snd run) = 100%N.
Proof.
  cbv zeta.
  assert (Hrun : FileUpload.upload_chunks (L := lib_crypto Toy.platform)
                   (FileUpload.turns_for Sample.note) Sample.note Toy.dek (js "token")
                   0 0 Sample.world_registered
                 = (Fulfilled tt,
                    snd (FileUpload.upload_chunks (L := lib_crypto Toy.platform)
                           (FileUpload.turns_for Sample.note) Sample.note Toy.dek
                           (js "token") 0 0 Sample.world_registered)))
    by (vm_compute; reflexivity).
  split; [exact Hrun|].
  exact (progress_reaches_100 Sample.note Toy.dek (js "token") 0
           Sample.world_registered _ Hrun).
Defined.


Lemma fresh_dek_round_trip_run :
  exists dek blob,
    Crypto.generateDEK Toy.keys
    = (Fulfilled dek, mkKeyGenerator (outcomes Toy.keys) 1)
    /\ Crypto.encryptChunk (P := Toy.platform) [x01; x02; x03] dek Toy.counting
       = (Fulfilled blob, mkEntropy (tape Toy.counting) 12)
    /\ Crypto.decryptChunk (P := Toy.platform) blob dek = Fulfilled [x01; x02; x03].
Proof.
  destruct (fresh_dek_round_trip (P := Toy.platform) (H := ToyFacts.spec)
              [x01; x02; x03] Toy.keys Toy.counting)
    as (dek & blob & Hg & _ & _ & He & _ & Hd).
  exists dek, blob. split; [exact Hg|]. split; [exact He|exact Hd].
Defined.

Lemma kek_refused_for_chunks_run :
  exists kek,
    Crypto.getKEK (P := Toy.platform) Sample.password (js "salt") = Fulfilled kek
    /\ Crypto.encryptChunk (P := Toy.platform) [x01; x02; x03] kek Toy.counting
       = (Rejected InvalidAccessError, mkEntropy (tape Toy.counting) 12)
    /\ Crypto.decryptChunk (P := Toy.platform) (repeat x00 31) kek
       = Rejected InvalidAccessError.
Proof.
  apply (kek_refused_for_chunks (P := Toy.platform) (S := ToyFacts.spec)).
Defined.

End Trials.
